(** * TianGong AI Workspace: the MCP command surface of [cli.py]

    A shallow embedding of [src/tiangong_ai_workspace/cli.py]: the helper
    [_load_mcp_configs] and the three [mcp] commands ([services], [tools],
    [invoke]), together with the collaborators the commands call
    ([load_secrets] of [secrets.py]; [MCPToolClient] and the result
    normaliser of [mcp_client.py]).

    Python strings are [string]s (UTF-8 bytes: the byte-wise lexicographic
    order of [String.le] is the code-point order Python sorts by), a [dict]
    is an association list in insertion order, and a command is a function
    from the machine state to an outcome and a new state. *)

From Stdlib Require Import Ascii.
From stdpp Require Import base list strings sorting pretty.

Local Open Scope Z_scope.
Local Set Warnings "-register-all".

(** ** Python values *)

(** What [json.loads] builds and what a tool call returns. A float keeps its
    lexeme; a [dict] keeps its keys in insertion order. *)
Inductive value : Type :=
  | VNone
  | VBool (b : bool)
  | VInt (z : Z)
  | VFloat (lexeme : string)
  | VStr (s : string)
  | VList (items : list value)
  | VDict (entries : list (string * value)).

(** The empty mapping [{}] of line 182. *)
Definition empty_mapping : value := VDict [].

(** The outcome of [json.loads] on a [str]. *)
Inductive loads_result : Type :=
  | Loaded (v : value)
  | JSONDecodeError (exc : string).

(** A [pathlib.Path], by its [str()]. *)
Definition path : Type := string.

(** The outcome of [Path.read_text(encoding="utf-8")]. A file that cannot be
    opened or read raises an [OSError]; bytes that are not UTF-8 raise
    [UnicodeDecodeError], which is a [ValueError]. *)
Inductive read_result : Type :=
  | ReadText (text : string)
  | ReadOSError (exc : string)
  | ReadUnicodeError (exc : string).

(** [bool(args)] for [args : Optional[str]]: [None] and [""] are falsy. *)
Definition truthy (o : option string) : bool :=
  match o with
  | Some s => bool_decide (s ≠ "")
  | None => false
  end.

(** [bool(args_file)] for [args_file : Optional[Path]]: a [Path] defines
    neither [__bool__] nor [__len__], so only [None] is falsy. *)
Definition truthy_path (o : option path) : bool :=
  match o with
  | Some _ => true
  | None => false
  end.

(** [str(x)] for an optional string field, as an f-string renders it. *)
Definition str_optional (o : option string) : string :=
  match o with
  | Some s => s
  | None => "None"
  end.

(** ** The secrets store *)

(** Modelled from the spec: the credential material of a service (section 3,
    [auth]: a bearer token or a header map); the class is declared in
    [secrets.py]. *)
Inductive auth_material : Type :=
  | BearerToken (token : string)
  | HeaderMap (headers : list (string * string)).

(** Modelled from the spec: the record [MCPServerSecrets] of [secrets.py],
    with the fields of section 3. [cli.py] reads [service_name],
    [transport] and [url]. *)
Record MCPServerSecrets : Type := {
  service_name : string;
  transport : string;
  url : option string;
  command : list string;
  auth : option auth_material
}.

(** The mapping [secrets.mcp_servers], in insertion order. *)
Definition mcp_servers : Type := list (string * MCPServerSecrets).

(** Modelled from the spec: what [load_secrets()] of [secrets.py] does
    (section 4.1 and the taxonomy of section 7): it returns the mapping, or
    fails with [SecretsNotFound] (Python's [FileNotFoundError], the one
    exception [_load_mcp_configs] catches) or with [SecretsMalformed]. *)
Inductive load_result : Type :=
  | SecretsLoaded (servers : mcp_servers)
  | LoadNotFound (exc : string)
  | LoadMalformed (exc : string).

(** [sorted(configs)]: the keys in ascending order. *)
Definition sorted (configs : mcp_servers) : list string :=
  merge_sort String.le (configs.*1).

(** [", ".join(sorted(configs)) or "none"] of lines 144 and 201. *)
Definition available (configs : mcp_servers) : string :=
  let joined := String.concat ", " (sorted configs) in
  if bool_decide (joined = "") then "none" else joined.

(** ** Tools, raw responses and errors *)

(** A tool as a service advertises it; [description] may be missing. *)
Record Tool : Type := {
  name : string;
  description : option string
}.

(** Modelled from the spec: an item of a structured "content" list
    (section 4.4): text-bearing, or a binary reference. *)
Inductive content_item : Type :=
  | TextItem (text : string)
  | BlobItem (ref : value).

(** Modelled from the spec: the raw transport response of [call_tool]
    (section 4.4): a single unstructured text, a structured content list,
    a service-side error, or a shape the client does not recognise. *)
Inductive raw_response : Type :=
  | RawText (payload : string)
  | RawContent (items : list content_item)
  | RawError (detail : string)
  | RawUnrecognized.

(** The error taxonomy of section 7, with the one Python built-in the
    [invoke] command lets through ([UnicodeDecodeError]) and the aggregate
    of the failures met while closing connectors (section 4.3). *)
Inductive error : Type :=
  | SecretsNotFound (msg : string)
  | SecretsMalformed (msg : string)
  | UnknownService (service : string) (known : list string)
  | ConnectionFailed (service : string)
  | ProtocolError (service : string)
  | ToolNotFound (service tool : string)
  | InvocationFailed (service detail : string)
  | Timeout (service : string)
  | CloseFailed (failures : list error)
  | UnicodeDecodeError (msg : string).

(** ** The machine state *)

Inductive colour : Type := RED | YELLOW.

(** A live session to one service. *)
Record connector : Type := {
  conn_service : string;
  conn_closed : bool
}.

(** What a run does that the outside can see, in order. *)
Inductive event : Type :=
  | Echo (message : string)
  | Secho (message : string) (fg : colour)
  | LoadSecrets
  | DiscoverSecretsPath
  | ReadTextFile (file : path)
  | ClientEnter
  | ConnOpen (service : string) (opened : bool)
  | ConnListTools (handle : nat)
  | ConnCallTool (handle : nat) (tool : string) (arguments : value)
  | ConnClose (handle : nat) (failure : option error)
  | ClientExit.

(** The state a command runs in: the trace so far, the connectors that
    exist (a handle is an index), and the [service name -> handle] mapping of
    the client in scope, in order of opening. *)
Record state : Type := {
  trace : list event;
  connectors : list connector;
  client : list (string * nat)
}.

Definition initial : state :=
  {| trace := []; connectors := []; client := [] |}.

(** How a command ends: it returns, it raises [typer.Exit(code)], or another
    exception escapes. *)
Inductive outcome (A : Type) : Type :=
  | Returned (a : A)
  | Exit (code : Z)
  | Raised (e : error).
Arguments Returned {A} a.
Arguments Exit {A} code.
Arguments Raised {A} e.

(** ** The command monad *)

Definition M (A : Type) : Type := state → outcome A * state.

Definition ret {A} (a : A) : M A := λ s, (Returned a, s).

Definition bind {A B} (m : M A) (k : A → M B) : M B :=
  λ s, match m s with
       | (Returned a, s') => k a s'
       | (Exit c, s') => (Exit c, s')
       | (Raised e, s') => (Raised e, s')
       end.

Definition raise {A} (e : error) : M A := λ s, (Raised e, s).

(** [raise typer.Exit(code=c)]. *)
Definition typer_exit {A} (c : Z) : M A := λ s, (Exit c, s).

(** The state after some more events. *)
Definition log (s : state) (events : list event) : state :=
  {| trace := trace s ++ events; connectors := connectors s; client := client s |}.

Definition emit (e : event) : M unit := λ s, (Returned tt, log s [e]).

Definition get : M state := λ s, (Returned s, s).

(** The monad plugs into stdpp's [x ← m; k] and [m;; k] notations. *)
#[global] Instance M_ret : MRet M := @ret.
#[global] Instance M_bind : MBind M := λ A B k m, bind m k.

Definition echo (message : string) : M unit := emit (Echo message).
Definition secho (message : string) (fg : colour) : M unit := emit (Secho message fg).

(** A [for] loop over a list. *)
Fixpoint for_each {A} (l : list A) (body : A → M unit) : M unit :=
  match l with
  | [] => ret tt
  | x :: l' => body x;; for_each l' body
  end.

(** [d.get(k)] on a dict kept as an association list. *)
Fixpoint dict_get {A} (d : list (string * A)) (k : string) : option A :=
  match d with
  | [] => None
  | (k', v) :: d' => if decide (k' = k) then Some v else dict_get d' k
  end.

(** [k in d]. *)
Definition contains {A} (d : list (string * A)) (k : string) : bool :=
  bool_decide (k ∈ d.*1).

(** ** The world outside the process *)

(** What the file system and the services answer. The answers of a service
    may change over time: they are indexed by the number of events so far. *)
Record World : Type := {
  load_secrets : load_result;
  discover_secrets_path : path;
  read_text : path → read_result;
  transport_open : nat → string → MCPServerSecrets → bool;
  transport_list_tools : nat → string → error + list Tool;
  transport_call_tool : nat → string → string → value → error + raw_response;
  transport_close : nat → string → option error
}.

(** ** The result normaliser *)

(** Modelled from the spec: [ResultNormalizer] of [mcp_client.py]
    (section 4.4). *)
Module ResultNormalizer.

Definition item_value (i : content_item) : value :=
  match i with
  | TextItem text => VStr text
  | BlobItem ref => ref
  end.

(** The first text-bearing item of a content list and every other item,
    in the original order. *)
Fixpoint split_first_text (items : list content_item)
    : option (string * list content_item) :=
  match items with
  | [] => None
  | TextItem text :: rest => Some (text, rest)
  | BlobItem ref :: rest =>
      match split_first_text rest with
      | Some (text, others) => Some (text, BlobItem ref :: others)
      | None => None
      end
  end.

(** [(primary, attachments)], or [None] for a shape that is not
    recognised (section 4.4 names no primary value for a content list
    without a text-bearing item: it is not recognised either). A
    service-side error never reaches the normaliser. *)
Definition normalize (raw : raw_response) : option (value * list value) :=
  match raw with
  | RawText payload => Some (VStr payload, [])
  | RawContent items =>
      match split_first_text items with
      | Some (text, others) => Some (VStr text, item_value <$> others)
      | None => None
      end
  | RawError _ => None
  | RawUnrecognized => None
  end.

End ResultNormalizer.

(** ** Connectors and the tool client *)

(** Modelled from the spec: [TransportConnector] (section 4.2) and
    [MCPToolClient] (section 4.3) of [mcp_client.py]. *)
Module MCPToolClient.
Section client.

Variable w : World.

Definition now (s : state) : nat := length (trace s).

(** [open]: the session is established and gets the next handle, or the
    call fails with [ConnectionFailed]. *)
Definition connector_open (service : string) (secrets : MCPServerSecrets) : M nat :=
  λ s,
    if transport_open w (now s) service secrets then
      (Returned (length (connectors s)),
       {| trace := trace s ++ [ConnOpen service true];
          connectors := connectors s ++ [{| conn_service := service; conn_closed := false |}];
          client := client s ++ [(service, length (connectors s))] |})
    else
      (Raised (ConnectionFailed service),
       {| trace := trace s ++ [ConnOpen service false];
          connectors := connectors s;
          client := client s |}).

(** [close]: releases the session and reports a failure met on the way;
    on a connector that is already closed it does nothing. It never
    raises. *)
Definition connector_close (h : nat) (s : state) : option error * state :=
  match connectors s !! h with
  | Some c =>
      if conn_closed c then (None, s)
      else
        let failure := transport_close w (now s) (conn_service c) in
        (failure,
         {| trace := trace s ++ [ConnClose h failure];
            connectors := <[h := {| conn_service := conn_service c; conn_closed := true |}]> (connectors s);
            client := client s |})
  | None => (None, s)
  end.

(** The connector of a service: unknown names fail before anything is
    opened; a connector that is already held is used again. *)
Definition resolve (configs : mcp_servers) (service : string) : M nat :=
  match dict_get configs service with
  | None => raise (UnknownService service (sorted configs))
  | Some secrets =>
      s ← get;
      match dict_get (client s) service with
      | Some h => ret h
      | None => connector_open service secrets
      end
  end.

Definition list_tools (configs : mcp_servers) (service : string) : M (list Tool) :=
  h ← resolve configs service;
  s ← get;
  emit (ConnListTools h);;
  match transport_list_tools w (now s) service with
  | inl e => raise e
  | inr tools => ret tools
  end.

Definition invoke_tool (configs : mcp_servers) (service tool : string) (arguments : value)
    : M (value * list value) :=
  h ← resolve configs service;
  s ← get;
  emit (ConnCallTool h tool arguments);;
  match transport_call_tool w (now s) service tool arguments with
  | inl e => raise e
  | inr (RawError detail) => raise (InvocationFailed service detail)
  | inr raw =>
      match ResultNormalizer.normalize raw with
      | Some r => ret r
      | None => raise (ProtocolError service)
      end
  end.

(** Close the given connectors in turn and collect the failures. *)
Fixpoint close_all (hs : list nat) (s : state) : list error * state :=
  match hs with
  | [] => ([], s)
  | h :: hs' =>
      let '(failure, s1) := connector_close h s in
      let '(failures, s2) := close_all hs' s1 in
      (option_list failure ++ failures, s2)
  end.

(** Leaving the scope: every connector the client holds is closed, the
    last one opened first. *)
Definition client_exit (s : state) : list error * state :=
  let '(failures, s1) := close_all (reverse ((client s).*2)) s in
  (failures,
   {| trace := trace s1 ++ [ClientExit]; connectors := connectors s1; client := client s1 |}).

(** Entering the scope: a client that holds no connector yet. *)
Definition client_enter : M unit :=
  λ s, (Returned tt,
        {| trace := trace s ++ [ClientEnter]; connectors := connectors s; client := [] |}).

(** [with MCPToolClient(configs) as client: body]. The exit runs however
    the body ends; failures of the closing are raised only when no error
    is already on its way. *)
Definition with_client {A} (body : M A) : M A :=
  λ s,
    let '(r, s1) := (client_enter;; body) s in
    let '(failures, s2) := client_exit s1 in
    match r, failures with
    | Returned _, _ :: _ => (Raised (CloseFailed failures), s2)
    | _, _ => (r, s2)
    end.

(** The calls of a scope, one after the other. *)
Inductive call : Type :=
  | ListTools (service : string)
  | InvokeTool (service tool : string) (arguments : value).

Definition run_call (configs : mcp_servers) (c : call) : M unit :=
  match c with
  | ListTools service => list_tools configs service;; ret tt
  | InvokeTool service tool arguments => invoke_tool configs service tool arguments;; ret tt
  end.

Definition run_calls (configs : mcp_servers) (calls : list call) : M unit :=
  for_each calls (run_call configs).

End client.
End MCPToolClient.

(** ** The commands of [cli.py] *)

Section cli.

(** [json.loads] and [json.dumps(value, indent=2, ensure_ascii=True)] of
    the Python standard library, and the world the process runs in. *)
Variable json_loads : string → loads_result.
Variable json_dumps : value → string.
Variable w : World.

(** Lines 114-125. *)
Definition _load_mcp_configs : M mcp_servers :=
  emit LoadSecrets;;
  match load_secrets w with
  | LoadNotFound exc => secho exc RED;; typer_exit 2
  | LoadMalformed exc => raise (SecretsMalformed exc)
  | SecretsLoaded [] =>
      emit DiscoverSecretsPath;;
      secho ("No MCP services configured in " +:+ discover_secrets_path w
             +:+ ". Populate a *_mcp section (see `.sercrets/secrets.example.toml`).")
            YELLOW;;
      typer_exit 3
  | SecretsLoaded servers => ret servers
  end.

(** Lines 128-135. *)
Definition list_mcp_services : M unit :=
  configs ← _load_mcp_configs;
  echo "Configured MCP services:";;
  for_each (configs.*2) (λ service,
    echo ("- " +:+ service_name service +:+ " (" +:+ transport service
          +:+ ") -> " +:+ str_optional (url service))).

(** The message of lines 145 and 202. *)
Definition not_found (service_name : string) (configs : mcp_servers) : string :=
  "Service '" +:+ service_name +:+ "' not found. Available: " +:+ available configs.

(** Lines 138-161. *)
Definition list_mcp_tools (service_name : string) : M unit :=
  configs ← _load_mcp_configs;
  if negb (contains configs service_name) then
    secho (not_found service_name configs) RED;;
    typer_exit 4
  else
    tools ← MCPToolClient.with_client w (MCPToolClient.list_tools w configs service_name);
    match tools with
    | [] => echo ("No tools advertised by service '" +:+ service_name +:+ "'.")
    | _ =>
        echo ("Tools available on '" +:+ service_name +:+ "':");;
        for_each tools (λ tool,
          let description := default "" (description tool) in
          if bool_decide (description ≠ "") then
            echo ("- " +:+ name tool +:+ ": " +:+ description)
          else
            echo ("- " +:+ name tool))
    end.

(** Lines 216-222; every [value] can be dumped, so [repr] is not reached. *)
Definition _format_result (v : value) : string :=
  match v with
  | VStr s => s
  | _ => json_dumps v
  end.

(** Lines 184-188: the payload of [--args]. *)
Definition inline_payload (args : string) : M value :=
  match json_loads args with
  | Loaded payload => ret payload
  | JSONDecodeError exc =>
      secho ("Invalid JSON for --args: " +:+ exc) RED;;
      typer_exit 6
  end.

(** Lines 190-197: the payload of [--args-file]. *)
Definition file_payload (args_file : path) : M value :=
  emit (ReadTextFile args_file);;
  match read_text w args_file with
  | ReadText text =>
      match json_loads text with
      | Loaded payload => ret payload
      | JSONDecodeError exc =>
          secho ("Invalid JSON in file " +:+ args_file +:+ ": " +:+ exc) RED;;
          typer_exit 7
      end
  | ReadOSError exc =>
      secho ("Failed to read arguments file " +:+ args_file +:+ ": " +:+ exc) RED;;
      typer_exit 8
  | ReadUnicodeError exc => raise (UnicodeDecodeError exc)
  end.

(** Lines 182-197: [if args: ... elif args_file: ...], from [{}]. *)
Definition read_payload (args : option string) (args_file : option path) : M value :=
  let elif_args_file :=
    match args_file with
    | Some file => file_payload file
    | None => ret empty_mapping
    end in
  match args with
  | Some a => if truthy args then inline_payload a else elif_args_file
  | None => elif_args_file
  end.

(** Lines 208-213. *)
Definition print_result (result : value) (attachments : list value) : M unit :=
  echo "Tool result:";;
  echo (_format_result result);;
  match attachments with
  | [] => ret tt
  | _ =>
      echo (String "010"%char "Attachments:");;
      for_each attachments (λ attachment, echo (_format_result attachment))
  end.

(** Lines 199-213: what [invoke] does once it has the payload. *)
Definition invoke_with_payload (service_name tool_name : string) (payload : value)
    : M unit :=
  configs ← _load_mcp_configs;
  if negb (contains configs service_name) then
    secho (not_found service_name configs) RED;;
    typer_exit 9
  else
    '(result, attachments) ←
      MCPToolClient.with_client w
        (MCPToolClient.invoke_tool w configs service_name tool_name payload);
    print_result result attachments.

(** Lines 164-213. *)
Definition invoke_mcp_tool (service_name tool_name : string)
    (args : option string) (args_file : option path) : M unit :=
  if truthy args && truthy_path args_file then
    secho "Use either --args or --args-file, not both." RED;;
    typer_exit 5
  else
    payload ← read_payload args args_file;
    invoke_with_payload service_name tool_name payload.

End cli.

(** ** A JSON decoder to run the commands on *)

(** A decoder for the commands to be run with: it reads JSON texts the way
    [json.loads] does (same grammar, same values, same messages, positions
    counted in bytes), except that it knows no [\u] escape. The commands
    above do not depend on it: they take the decoder as a parameter. *)
Module Json.

Local Open Scope char_scope.
Local Open Scope nat_scope.

Inductive parsed (A : Type) : Type :=
  | Ok (a : A) (rest : list ascii) (pos : nat)
  | Err (msg : string) (pos : nat).
Arguments Ok {A} a rest pos.
Arguments Err {A} msg pos.

Definition is_digit (c : ascii) : bool :=
  (48 <=? nat_of_ascii c) && (nat_of_ascii c <=? 57).

Definition digit (c : ascii) : Z := Z.of_nat (nat_of_ascii c - 48).

Fixpoint skip_ws (l : list ascii) (pos : nat) : list ascii * nat :=
  match l with
  | " " :: l' | "009" :: l' | "010" :: l' | "013" :: l' => skip_ws l' (S pos)
  | _ => (l, pos)
  end.

Definition unescape (c : ascii) : option ascii :=
  match c with
  | "034" => Some "034"
  | "\" => Some "\"
  | "/" => Some "/"
  | "b" => Some "008"
  | "f" => Some "012"
  | "n" => Some "010"
  | "r" => Some "013"
  | "t" => Some "009"
  | _ => None
  end.

(** The body of a string, after the opening quote at [begin]. *)
Fixpoint scanstring (l : list ascii) (pos begin : nat) (acc : string) : parsed string :=
  match l with
  | [] => Err "Unterminated string starting at" begin
  | "034" :: l' => Ok (String.rev acc) l' (S pos)
  | "\" :: [] => Err "Unterminated string starting at" begin
  | "\" :: e :: l' =>
      match unescape e with
      | Some c => scanstring l' (S (S pos)) begin (String c acc)
      | None => Err "Invalid \escape" pos
      end
  | c :: l' =>
      if nat_of_ascii c <? 32 then Err "Invalid control character at" pos
      else scanstring l' (S pos) begin (String c acc)
  end.

(** The longest prefix of digits. *)
Fixpoint digits (l : list ascii) : list ascii * list ascii :=
  match l with
  | c :: l' =>
      if is_digit c then let '(ds, rest) := digits l' in (c :: ds, rest)
      else ([], l)
  | [] => ([], [])
  end.

(** The integer part: a single zero, or digits that start with a non-zero one. *)
Definition int_part (l : list ascii) : option (list ascii * list ascii) :=
  match l with
  | "0" :: rest => Some (["0"], rest)
  | c :: _ => if is_digit c then Some (digits l) else None
  | [] => None
  end.

(** The optional fraction: a dot and at least one digit. *)
Definition frac_part (l : list ascii) : list ascii * list ascii :=
  match l with
  | "." :: l' =>
      match digits l' with
      | ([], _) => ([], l)
      | (ds, rest) => ("." :: ds, rest)
      end
  | _ => ([], l)
  end.

(** The optional exponent: [e] or [E], an optional sign, at least one digit. *)
Definition exp_part (l : list ascii) : list ascii * list ascii :=
  let signed e l' :=
    match l' with
    | "-" :: l'' | "+" :: l'' =>
        match digits l'' with
        | ([], _) => ([], l)
        | (ds, rest) => (e :: hd "+" l' :: ds, rest)
        end
    | _ =>
        match digits l' with
        | ([], _) => ([], l)
        | (ds, rest) => (e :: ds, rest)
        end
    end in
  match l with
  | "e" :: l' => signed "e" l'
  | "E" :: l' => signed "E" l'
  | _ => ([], l)
  end.

Definition int_value (ds : list ascii) : Z :=
  foldl (λ acc c, 10 * acc + digit c)%Z 0%Z ds.

(** A number at the head of [l], with the characters it takes. *)
Definition number (l : list ascii) : option (value * list ascii * nat) :=
  let '(neg, l1) := match l with "-" :: l' => (true, l') | _ => (false, l) end in
  match int_part l1 with
  | None => None
  | Some (ip, l2) =>
      let '(fp, l3) := frac_part l2 in
      let '(ep, l4) := exp_part l3 in
      let lexeme := (if neg then ["-"] else []) ++ ip ++ fp ++ ep in
      let v :=
        match fp, ep with
        | [], [] => VInt (if neg then - int_value ip else int_value ip)
        | _, _ => VFloat (String.string_of_list_ascii lexeme)
        end in
      Some (v, l4, length lexeme)
  end.

(** [l] starts with the characters of [lit]. *)
Fixpoint literal (lit : string) (l : list ascii) : option (list ascii) :=
  match lit, l with
  | EmptyString, _ => Some l
  | String c lit', c' :: l' => if bool_decide (c = c') then literal lit' l' else None
  | String _ _, [] => None
  end.

(** [dict(pairs)]: a key met again keeps its place and takes the new value. *)
Fixpoint dict_set (d : list (string * value)) (k : string) (v : value)
    : list (string * value) :=
  match d with
  | [] => [(k, v)]
  | (k', v') :: d' =>
      if decide (k' = k) then (k, v) :: d' else (k', v') :: dict_set d' k v
  end.

Definition constants : list (string * value) :=
  [("null", VNone); ("true", VBool true); ("false", VBool false);
   ("NaN", VFloat "NaN"); ("Infinity", VFloat "Infinity");
   ("-Infinity", VFloat "-Infinity")]%string.

Definition constant (l : list ascii) : option (value * list ascii * nat) :=
  let try (found : option (value * list ascii * nat)) (kv : string * value) :=
    match found, literal kv.1 l with
    | Some r, _ => Some r
    | None, Some rest => Some (kv.2, rest, String.length kv.1)
    | None, None => None
    end in
  foldl try None constants.

(** One value at the head of [l]; [array_loop] and [object_loop] read the
    items that follow an opening bracket or brace. Each nested call
    follows a character that was consumed, so fuel twice the length of
    the text never runs out. *)
Fixpoint scan_once (fuel : nat) (l : list ascii) (pos : nat) : parsed value :=
  match fuel with
  | O => Err "Expecting value" pos
  | S n =>
      match l with
      | "034" :: l' =>
          match scanstring l' (S pos) pos "" with
          | Ok s rest p => Ok (VStr s) rest p
          | Err msg p => Err msg p
          end
      | "[" :: l' =>
          match skip_ws l' (S pos) with
          | ("]" :: rest, p) => Ok (VList []) rest (S p)
          | (rest, p) => array_loop n rest p []
          end
      | "{" :: l' =>
          match skip_ws l' (S pos) with
          | ("}" :: rest, p) => Ok (VDict []) rest (S p)
          | ("034" :: rest, p) => object_loop n rest (S p) p []
          | (_, p) => Err "Expecting property name enclosed in double quotes" p
          end
      | _ =>
          match number l with
          | Some (v, rest, len) => Ok v rest (pos + len)
          | None =>
              match constant l with
              | Some (v, rest, len) => Ok v rest (pos + len)
              | None => Err "Expecting value" pos
              end
          end
      end
  end
with array_loop (fuel : nat) (l : list ascii) (pos : nat) (acc : list value)
    : parsed value :=
  match fuel with
  | O => Err "Expecting value" pos
  | S n =>
      match scan_once n l pos with
      | Err msg p => Err msg p
      | Ok v rest p =>
          match skip_ws rest p with
          | ("]" :: rest', p') => Ok (VList (acc ++ [v])) rest' (S p')
          | ("," :: rest', p') =>
              let '(rest'', p'') := skip_ws rest' (S p') in
              array_loop n rest'' p'' (acc ++ [v])
          | (_, p') => Err "Expecting ',' delimiter" p'
          end
      end
  end
with object_loop (fuel : nat) (l : list ascii) (pos begin : nat)
    (acc : list (string * value)) : parsed value :=
  match fuel with
  | O => Err "Expecting value" pos
  | S n =>
      match scanstring l pos begin "" with
      | Err msg p => Err msg p
      | Ok key rest p =>
          match skip_ws rest p with
          | (":" :: rest1, p1) =>
              let '(rest2, p2) := skip_ws rest1 (S p1) in
              match scan_once n rest2 p2 with
              | Err msg p3 => Err msg p3
              | Ok v rest3 p3 =>
                  match skip_ws rest3 p3 with
                  | ("}" :: rest4, p4) => Ok (VDict (dict_set acc key v)) rest4 (S p4)
                  | ("," :: rest4, p4) =>
                      match skip_ws rest4 (S p4) with
                      | ("034" :: rest5, p5) =>
                          object_loop n rest5 (S p5) p5 (dict_set acc key v)
                      | (_, p5) =>
                          Err "Expecting property name enclosed in double quotes" p5
                      end
                  | (_, p4) => Err "Expecting ',' delimiter" p4
                  end
              end
          | (_, p1) => Err "Expecting ':' delimiter" p1
          end
      end
  end.

(** The line and the column of offset [pos], counted from 1. *)
Fixpoint locate (doc : list ascii) (pos line col : nat) : nat * nat :=
  match pos, doc with
  | S pos', "010" :: doc' => locate doc' pos' (S line) 1
  | S pos', _ :: doc' => locate doc' pos' line (S col)
  | _, _ => (line, col)
  end.

(** [str(exc)] of a [JSONDecodeError]: the message, then the line, the
    column and the offset of the position in the text. *)
Definition describe (doc : list ascii) (msg : string) (pos : nat) : string :=
  let '(lineno, colno) := locate doc pos 1 1 in
  msg +:+ ": line " +:+ pretty lineno +:+ " column " +:+ pretty colno
      +:+ " (char " +:+ pretty pos +:+ ")".

(** [json.loads(s)]. *)
Definition loads (s : string) : loads_result :=
  let doc := String.list_ascii_of_string s in
  let '(l, pos) := skip_ws doc 0 in
  match scan_once (2 * length doc + 2) l pos with
  | Err msg p => JSONDecodeError (describe doc msg p)
  | Ok v rest p =>
      match skip_ws rest p with
      | ([], _) => Loaded v
      | (_, p') => JSONDecodeError (describe doc "Extra data" p')
      end
  end.

(** A placeholder for [json.dumps]: the commands only print what it
    returns. *)
Definition dumps (v : value) : string := "<json>".

End Json.

(** ** Failures as a script sees them *)

(** The failures the [mcp] commands report by an exit code. *)
Inductive failure : Type :=
  | NoSecretsSource
  | NoServicesConfigured
  | UnknownServiceName
  | BothArgumentSources
  | MalformedJSON
  | FileUnreadable.

#[global] Instance failure_eq_dec : EqDecision failure.
Proof. solve_decision. Defined.

(** The failure an exit code stands for, by its [raise typer.Exit] site:
    lines 119, 124, 146 and 203, 180, 188 and 194, 197. *)
Definition failure_of_code (code : Z) : option failure :=
  match code with
  | 2 => Some NoSecretsSource
  | 3 => Some NoServicesConfigured
  | 4 | 9 => Some UnknownServiceName
  | 5 => Some BothArgumentSources
  | 6 | 7 => Some MalformedJSON
  | 8 => Some FileUnreadable
  | _ => None
  end.

(** An event of the tool client: a scope, a connector, a call. *)
Definition connects (e : event) : bool :=
  match e with
  | ClientEnter | ConnOpen _ _ | ConnListTools _ | ConnCallTool _ _ _
  | ConnClose _ _ | ClientExit => true
  | _ => false
  end.

(** An event that loads the secrets or reaches for a service. *)
Definition reaches_out (e : event) : bool :=
  match e with
  | LoadSecrets | DiscoverSecretsPath => true
  | _ => connects e
  end.

(** [s1] occurs inside [s2]. *)
Definition includes (s2 s1 : string) : Prop :=
  ∃ before after, s2 = before +:+ s1 +:+ after.

(** A run is rejected before any secrets loading or service contact: it
    exits with a code, no connector has appeared, and nothing it did
    reaches out. *)
Definition rejected_early (run : M unit) (s : state) : Prop :=
  ∃ code events,
    run s = (Exit code, log s events) ∧
    Forall (λ e, reaches_out e = false) events.


(** The fields of a service that the [services] command prints. *)
Definition listing_fields (c : MCPServerSecrets) : string * string * option string :=
  (service_name c, transport c, url c).

(** Two answers of [load_secrets] that agree on everything [services]
    prints. *)
Definition same_listing (r1 r2 : load_result) : Prop :=
  match r1, r2 with
  | SecretsLoaded a, SecretsLoaded b => listing_fields <$> a.*2 = listing_fields <$> b.*2
  | LoadNotFound e1, LoadNotFound e2 => e1 = e2
  | LoadMalformed e1, LoadMalformed e2 => e1 = e2
  | _, _ => False
  end.

(** The same world with other secrets. *)
Definition with_secrets (r : load_result) (w : World) : World :=
  {| load_secrets := r;
     discover_secrets_path := discover_secrets_path w;
     read_text := read_text w;
     transport_open := transport_open w;
     transport_list_tools := transport_list_tools w;
     transport_call_tool := transport_call_tool w;
     transport_close := transport_close w |}.

(** ** A world to run the commands in *)

(** The scenario of section 8: a service [search] over HTTP and a service
    [files] over stdio, whose tool calls fail. *)
Module Demo.

Definition search : MCPServerSecrets :=
  {| service_name := "search"; transport := "http"; url := Some "https://svc/mcp";
     command := []; auth := Some (BearerToken "s3cr3t") |}.

Definition files : MCPServerSecrets :=
  {| service_name := "files"; transport := "stdio"; url := None;
     command := ["mcp-fs"]; auth := None |}.

Definition servers : mcp_servers := [("search", search); ("files", files)].

Definition read (file : path) : read_result :=
  if decide (file = "args.json") then ReadText "{}"
  else if decide (file = "bad.json") then ReadText "{bad"
  else if decide (file = "latin1.json") then
    ReadUnicodeError "'utf-8' codec can't decode byte 0xe9 in position 0: unexpected end of data"
  else ReadOSError ("[Errno 2] No such file or directory: '" +:+ file +:+ "'").

Definition world : World :=
  {| load_secrets := SecretsLoaded servers;
     discover_secrets_path := ".secrets/secrets.toml";
     read_text := read;
     transport_open := λ _ _ _, true;
     transport_list_tools := λ _ service,
       if decide (service = "search") then inr [{| name := "query"; description := None |}]
       else inr [];
     transport_call_tool := λ _ service _ _,
       if decide (service = "files") then inr (RawError "permission denied")
       else inr (RawContent [BlobItem (VStr "blob:7"); TextItem "hit"; TextItem "more"]);
     transport_close := λ _ _, None |}.

(** The same services with other credentials. *)
Definition rotated : mcp_servers :=
  [("search",
    {| service_name := "search"; transport := "http"; url := Some "https://svc/mcp";
       command := []; auth := Some (HeaderMap [("X-Api-Key", "0ther")]) |});
   ("files",
    {| service_name := "files"; transport := "stdio"; url := None;
       command := ["mcp-fs"]; auth := Some (BearerToken "t0ken") |})].

End Demo.

(** ** Python's whitespace *)

(** [str.strip()] and [str.split()] of Python, on UTF-8 text: the white
    space is the one of [str.isspace] (U+0009 to U+000D, U+001C to U+0020,
    U+0085, U+00A0, U+1680, U+2000 to U+200A, U+2028, U+2029, U+202F,
    U+205F, U+3000). The commands below take the two functions as
    parameters; these are the ones they are run with. *)
Module Py.

Local Open Scope nat_scope.

Definition is_space1 (a : nat) : bool :=
  ((9 <=? a) && (a <=? 13)) || ((28 <=? a) && (a <=? 32)).

Definition is_space2 (a b : nat) : bool :=
  (a =? 194) && ((b =? 133) || (b =? 160)).

Definition is_space3 (a b c : nat) : bool :=
  ((a =? 225) && (b =? 154) && (c =? 128))
  || ((a =? 226) && (b =? 128)
      && (((128 <=? c) && (c <=? 138)) || (c =? 168) || (c =? 169) || (c =? 175)))
  || ((a =? 226) && (b =? 129) && (c =? 159))
  || ((a =? 227) && (b =? 128) && (c =? 128)).

(** The number of bytes of the white space character at the head of the
    text, or 0. *)
Definition space_at (l : list ascii) : nat :=
  match nat_of_ascii <$> l with
  | a :: rest =>
      if is_space1 a then 1
      else match rest with
           | b :: rest' =>
               if is_space2 a b then 2
               else match rest' with
                    | c :: _ => if is_space3 a b c then 3 else 0
                    | [] => 0
                    end
           | [] => 0
           end
  | [] => 0
  end.

(** The same at the end of the text, given back to front. *)
Definition space_before (l : list ascii) : nat :=
  match nat_of_ascii <$> l with
  | c :: rest =>
      if is_space1 c then 1
      else match rest with
           | b :: rest' =>
               if is_space2 b c then 2
               else match rest' with
                    | a :: _ => if is_space3 a b c then 3 else 0
                    | [] => 0
                    end
           | [] => 0
           end
  | [] => 0
  end.

(** Drop the characters at the head for which [at_head] gives a length. *)
Fixpoint drop_spaces (at_head : list ascii → nat) (skip : nat) (l : list ascii)
    : list ascii :=
  match l with
  | [] => []
  | _ :: l' =>
      match skip with
      | S k => drop_spaces at_head k l'
      | O =>
          match at_head l with
          | S k => drop_spaces at_head k l'
          | O => l
          end
      end
  end.

(** [s.strip()]. *)
Definition strip (s : string) : string :=
  let l := drop_spaces space_at 0 (String.list_ascii_of_string s) in
  String.string_of_list_ascii (reverse (drop_spaces space_before 0 (reverse l))).

(** The words of a text; [word] is the one being read, back to front. *)
Fixpoint words (skip : nat) (word : list ascii) (l : list ascii) : list string :=
  let finished :=
    match word with
    | [] => []
    | _ => [String.string_of_list_ascii (reverse word)]
    end in
  match l with
  | [] => finished
  | c :: l' =>
      match skip with
      | S k => words k word l'
      | O =>
          match space_at l with
          | S k => finished ++ words k [] l'
          | O => words 0 (c :: word) l'
          end
      end
  end.

(** [s.split()]. *)
Definition split (s : string) : list string :=
  words 0 [] (String.list_ascii_of_string s).

End Py.

(** ** The prerequisite commands of [cli.py] *)

(** The commands [info], [tools] and [check] (lines 28-108) and the machine
    they look at. *)
Module Workspace.

(** How [subprocess.run([command, "--version"], capture_output=True,
    text=True, check=False)] ends: the process ran, the executable was not
    found, or another exception was raised. *)
Inductive completed : Type :=
  | Completed (stdout stderr : string)
  | FileNotFound
  | OtherFailure (exc : string).

(** [sys.version_info]. *)
Record version_info : Type := {
  major : Z;
  minor : Z;
  micro : Z;
  releaselevel : string;
  serial : Z
}.

(** What the commands read from the machine. *)
Record Host : Type := {
  version : string;
  cwd : path;
  sys_version : string;
  sys_version_info : version_info;
  which : string → option path;
  run : list string → completed
}.

(** What a command does: it prints a line or it runs a process. *)
Inductive action : Type :=
  | Print (line : string)
  | Run (argv : list string).

(** The exceptions that escape a command. *)
Inductive exception : Type :=
  | IndexError
  | Uncaught (exc : string).

Inductive ended (A : Type) : Type :=
  | Done (a : A)
  | Crashed (e : exception).
Arguments Done {A} a.
Arguments Crashed {A} e.

Definition H (A : Type) : Type := list action → ended A * list action.

#[global] Instance H_ret : MRet H := λ A a acts, (Done a, acts).
#[global] Instance H_bind : MBind H := λ A B k m acts,
  match m acts with
  | (Done a, acts') => k a acts'
  | (Crashed e, acts') => (Crashed e, acts')
  end.

Definition crash {A} (e : exception) : H A := λ acts, (Crashed e, acts).
Definition act (a : action) : H unit := λ acts, (Done tt, acts ++ [a]).
Definition echo (line : string) : H unit := act (Print line).

Fixpoint for_each {A} (l : list A) (body : A → H unit) : H unit :=
  match l with
  | [] => mret tt
  | x :: l' => body x;; for_each l' body
  end.

(** [x or y] on an optional string. *)
Definition or_else (x : option string) (y : string) : string :=
  match x with
  | Some s => if bool_decide (s ≠ "") then s else y
  | None => y
  end.

(** [a >= b] on tuples of integers: the first position where they differ
    decides; without one the longer tuple is the greater. *)
Fixpoint tuple_ge (a b : list Z) : bool :=
  match a, b with
  | _, [] => true
  | [], _ :: _ => false
  | x :: a', y :: b' => if bool_decide (x = y) then tuple_ge a' b' else bool_decide (y < x)
  end.

(** Lines 29-33. *)
Definition REGISTERED_TOOLS : list (string * string) :=
  [("openai", "OpenAI CLI (Codex)");
   ("gcloud", "Google Cloud CLI (Gemini)");
   ("claude", "Claude Code CLI")].

Section commands.

(** [str.strip] and [str.split] of Python, and the machine. *)
Variable strip : string → string.
Variable split : string → list string.
Variable h : Host.

(** Lines 36-53. *)
Definition _get_version (command : string) : H (option string) :=
  act (Run [command; "--version"]);;
  match run h [command; "--version"] with
  | FileNotFound => mret None
  | OtherFailure exc => crash (Uncaught exc)
  | Completed stdout stderr =>
      let output := strip (if bool_decide (stdout ≠ "") then stdout else stderr) in
      mret (if bool_decide (output ≠ "") then Some output else None)
  end.

(** [sys.version.split()[0]]. *)
Definition python_version : H string :=
  match split (sys_version h) with
  | token :: _ => mret token
  | [] => crash IndexError
  end.


(** Lines 68-75. *)
Definition list_tools : H unit :=
  echo "Configured AI tooling commands:";;
  for_each REGISTERED_TOOLS (λ '(command, label),
    echo ("- " +:+ label +:+ ": `" +:+ command +:+ "`"));;
  echo "";;
  echo "Edit src/tiangong_ai_workspace/cli.py to customize this list.".

(** Line 83: [sys.version_info >= (3, 12)]; only the first two fields are
    ever compared with the pair. *)
Definition python_ok : bool :=
  let v := sys_version_info h in
  tuple_ge [major v; minor v; micro v] [3; 12].

(** Lines 100-105: the body of the loop over the registered tools. *)
Definition check_tool (command label : string) : H unit :=
  let location := which h command in
  let status := if truthy location then "[OK]" else "[MISSING]" in
  version ← (if truthy location then _get_version command else mret None);
  let detail := or_else version "not installed" in
  echo (status +:+ " " +:+ label +:+ " (" +:+ command +:+ "): " +:+ or_else location detail).

(** Lines 83-85. *)
Definition check_python : H unit :=
  let python_status := if python_ok then "[OK]" else "[WARN]" in
  python ← python_version;
  echo (python_status +:+ " Python " +:+ python +:+ " (requires >=3.12)").

(** Lines 87-89. *)
Definition check_uv : H unit :=
  let uv_path := which h "uv" in
  let uv_status := if truthy uv_path then "[OK]" else "[MISSING]" in
  echo (uv_status +:+ " Astral uv: " +:+ or_else uv_path "not found").

(** Lines 91-96. *)
Definition check_node : H unit :=
  let node_path := which h "node" in
  if truthy node_path then
    version ← _get_version "node";
    let node_version := or_else version "version unknown" in
    echo ("[OK] Node.js: " +:+ node_version +:+ " (" +:+ default "" node_path +:+ ")")
  else
    echo "[MISSING] Node.js: required for Node-based CLIs such as Claude Code".

(** Lines 78-108. *)
Definition check : H unit :=
  echo (String.app "Checking workspace prerequisites..." (String "010"%char ""));;
  check_python;;
  check_uv;;
  check_node;;
  echo "";;
  echo "AI coding toolchains:";;
  for_each REGISTERED_TOOLS (λ '(command, label), check_tool command label);;
  echo "";;
  echo "Update src/tiangong_ai_workspace/cli.py to adjust tool detection rules.".

End commands.

(** The lines a run printed, in order. *)
Definition printed (acts : list action) : list string :=
  omap (λ a, match a with Print line => Some line | Run _ => None end) acts.

(** The commands a run launched, in order. *)
Definition launched (acts : list action) : list (list string) :=
  omap (λ a, match a with Run argv => Some argv | Print _ => None end) acts.

(** The same machine with other answers from the processes it runs. *)
Definition with_run (answers : list string → completed) (h : Host) : Host :=
  {| version := version h;
     cwd := cwd h;
     sys_version := sys_version h;
     sys_version_info := sys_version_info h;
     which := which h;
     run := answers |}.

(** A machine with Python 3.12, uv and an old Node.js whose [--version]
    goes to standard error, and of the registered tools only [claude]. *)
Definition laptop : Host :=
  {| version := "0.1.0";
     cwd := "/home/dev/workspace";
     sys_version := "3.12.4 (main, Jun  6 2024, 18:26:44) [GCC 11.4.0]";
     sys_version_info :=
       {| major := 3; minor := 12; micro := 4; releaselevel := "final"; serial := 0 |};
     which := λ command,
       if decide (command = "uv") then Some "/usr/bin/uv"
       else if decide (command = "node") then Some "/usr/bin/node"
       else if decide (command = "claude") then Some "/usr/local/bin/claude"
       else None;
     run := λ argv,
       if decide (argv = ["node"; "--version"]) then
         Completed "" (String.app "v18.19.0" (String "010"%char ""))
       else if decide (argv = ["claude"; "--version"]) then
         Completed (String.app "1.0.3 (Claude Code)" (String "010"%char "")) ""
       else FileNotFound |}.

End Workspace.

(** ** What the properties speak of *)

(** The line [services] prints for a service (line 135), from the fields
    it reads. *)
Definition listing_line (fields : string * string * option string) : string :=
  "- " +:+ fields.1.1 +:+ " (" +:+ fields.1.2 +:+ ") -> " +:+ str_optional fields.2.

(** What it takes, in the arguments and in the world, for a failure to be
    the one that is met. *)
Definition failure_met (json_loads : string → loads_result) (w : World)
    (service_name : string) (args : option string) (args_file : option path)
    (k : failure) : Prop :=
  match k with
  | NoSecretsSource => ∃ exc, load_secrets w = LoadNotFound exc
  | NoServicesConfigured => load_secrets w = SecretsLoaded []
  | UnknownServiceName =>
      ∃ configs, load_secrets w = SecretsLoaded configs ∧ service_name ∉ configs.*1
  | BothArgumentSources => (∃ a, args = Some a ∧ a ≠ "") ∧ ∃ file, args_file = Some file
  | MalformedJSON =>
      ∃ text exc,
        json_loads text = JSONDecodeError exc
        ∧ (args = Some text ∨ ∃ file, args_file = Some file ∧ read_text w file = ReadText text)
  | FileUnreadable =>
      ∃ file exc, args_file = Some file ∧ read_text w file = ReadOSError exc
  end.

(** Every connector with a handle from [n] on is closed. *)
Definition closed_from (n : nat) (s : state) : Prop :=
  ∀ h c, (n ≤ h)%nat → connectors s !! h = Some c → conn_closed c = true.

(** The connectors with a handle from [n] on are exactly the ones the client
    holds. *)
Definition held_from (n : nat) (s : state) : Prop :=
  (n ≤ length (connectors s))%nat
  ∧ (∀ h, (n ≤ h < length (connectors s))%nat → h ∈ (client s).*2)
  ∧ (∀ h, h ∈ (client s).*2 → (n ≤ h < length (connectors s))%nat).

(** A body that only opens connectors through the client it is given. *)
Definition keeps_scope {A} (body : M A) : Prop :=
  ∀ n s r s',
    held_from n s → body s = (r, s') →
    held_from n s' ∧ connectors s `prefix_of` connectors s'.

(** An item that bears no text. *)
Definition is_blob (i : content_item) : Prop :=
  match i with
  | BlobItem _ => True
  | TextItem _ => False
  end.

(** A prerequisite command only adds to what was done before it, and what
    it adds satisfies [P]. *)
Definition adds {A} (P : Workspace.action → Prop) (m : Workspace.H A) : Prop :=
  ∀ acts, ∃ more, (m acts).2 = acts ++ more ∧ Forall P more.

(** An action that launches nothing but [command --version] for a command
    that [shutil.which] has found. *)
Definition found_first (h : Workspace.Host) (a : Workspace.action) : Prop :=
  match a with
  | Workspace.Run argv =>
      ∃ command, argv = [command; "--version"] ∧ truthy (Workspace.which h command) = true
  | Workspace.Print _ => True
  end.

(** What [_get_version] makes of the two streams of a process that ran
    (lines 52-53). *)
Definition version_of (strip : string → string) (stdout stderr : string) : option string :=
  let output := strip (if bool_decide (stdout ≠ "") then stdout else stderr) in
  if bool_decide (output ≠ "") then Some output else None.

(** The line [check] prints for a registered tool (lines 102-105), from
    where [shutil.which] found it. *)
Definition tool_line (location : option path) (command label : string) : string :=
  if truthy location then
    "[OK] " +:+ label +:+ " (" +:+ command +:+ "): " +:+ default "" location
  else
    "[MISSING] " +:+ label +:+ " (" +:+ command +:+ "): not installed".

(** The line [check] prints for Node.js (lines 91-96). *)
Definition node_line (strip : string → string) (h : Workspace.Host) : string :=
  if truthy (Workspace.which h "node") then
    "[OK] Node.js: "
    +:+ Workspace.or_else
          match Workspace.run h ["node"; "--version"] with
          | Workspace.Completed stdout stderr => version_of strip stdout stderr
          | _ => None
          end
          "version unknown"
    +:+ " (" +:+ default "" (Workspace.which h "node") +:+ ")"
  else "[MISSING] Node.js: required for Node-based CLIs such as Claude Code".

(** The lines [check] prints when nothing escapes (lines 81-108), given
    the first word of [sys.version]. *)
Definition check_lines (strip : string → string) (h : Workspace.Host) (python : string)
    : list string :=
  [String.app "Checking workspace prerequisites..." (String "010"%char "");
   (if Workspace.python_ok h then "[OK]" else "[WARN]")
   +:+ " Python " +:+ python +:+ " (requires >=3.12)";
   (if truthy (Workspace.which h "uv") then "[OK]" else "[MISSING]")
   +:+ " Astral uv: " +:+ Workspace.or_else (Workspace.which h "uv") "not found";
   node_line strip h;
   "";
   "AI coding toolchains:"]
  ++ ((λ '(command, label), tool_line (Workspace.which h command) command label)
        <$> Workspace.REGISTERED_TOOLS)
  ++ ["";
      "Update src/tiangong_ai_workspace/cli.py to adjust tool detection rules."].

(** The line [tools] prints for a tool (lines 157-161). *)
Definition tool_entry (tool : Tool) : string :=
  match description tool with
  | Some text => if bool_decide (text ≠ "") then "- " +:+ name tool +:+ ": " +:+ text
                 else "- " +:+ name tool
  | None => "- " +:+ name tool
  end.

(** What [tools] prints for the tools of a service (lines 151-161). *)
Definition tools_lines (service_name : string) (tools : list Tool) : list event :=
  match tools with
  | [] => [Echo ("No tools advertised by service '" +:+ service_name +:+ "'.")]
  | _ => Echo ("Tools available on '" +:+ service_name +:+ "':")
         :: ((λ tool, Echo (tool_entry tool)) <$> tools)
  end.


(** An event that is neither the loading of the secrets nor the reading
    of the arguments file. *)
Definition neither_loads_nor_reads (e : event) : Prop :=
  match e with
  | LoadSecrets | ReadTextFile _ => False
  | _ => True
  end.

(** The events of a run in which the arguments file is read at most once,
    the secrets are loaded at most once, and the file comes first. *)
Definition reads_then_loads_once (events : list event) : Prop :=
  ∃ reading loading rest,
    events = reading ++ loading ++ rest
    ∧ (reading = [] ∨ ∃ file, reading = [ReadTextFile file])
    ∧ (loading = [] ∨ loading = [LoadSecrets])
    ∧ Forall neither_loads_nor_reads rest.

(** A step of the client adds events of the client only. *)
Definition client_step {A} (m : M A) : Prop :=
  ∀ s, ∃ events,
    trace (m s).2 = trace s ++ events ∧ Forall (λ e, connects e = true) events.

(** A step that neither loads the secrets nor reads the arguments file. *)
Definition plain_step {A} (m : M A) : Prop :=
  ∀ s, ∃ events,
    trace (m s).2 = trace s ++ events ∧ Forall neither_loads_nor_reads events.

(** * Properties *)

(** ** Running a command step by step *)

Ltac run :=
  repeat (unfold mbind, M_bind, bind, mret, M_ret, ret, emit, echo, secho,
            typer_exit, raise, get in *; simpl in *).

Lemma log_log s a b : log (log s a) b = log s (a ++ b).
Proof. unfold log; simpl. by rewrite <- (assoc_L (++)). Qed.

Lemma log_nil s : log s [] = s.
Proof. destruct s; unfold log; simpl. by rewrite (right_id_L [] (++)). Qed.

Section load.

Variable w : World.

Lemma load_some configs s :
  load_secrets w = SecretsLoaded configs → configs ≠ [] →
  _load_mcp_configs w s = (Returned configs, log s [LoadSecrets]).
Proof.
  intros Hload Hne. unfold _load_mcp_configs. run. rewrite Hload.
  destruct configs; [done|]. done.
Qed.

Lemma load_empty s :
  load_secrets w = SecretsLoaded [] →
  _load_mcp_configs w s =
    (Exit 3,
     log s [LoadSecrets; DiscoverSecretsPath;
            Secho ("No MCP services configured in " +:+ discover_secrets_path w
                   +:+ ". Populate a *_mcp section (see `.sercrets/secrets.example.toml`).")
                  YELLOW]).
Proof.
  intros Hload. unfold _load_mcp_configs. run. rewrite Hload. run.
  by rewrite !log_log.
Qed.

Lemma load_not_found exc s :
  load_secrets w = LoadNotFound exc →
  _load_mcp_configs w s = (Exit 2, log s [LoadSecrets; Secho exc RED]).
Proof.
  intros Hload. unfold _load_mcp_configs. run. rewrite Hload. run.
  by rewrite !log_log.
Qed.

Lemma load_malformed exc s :
  load_secrets w = LoadMalformed exc →
  _load_mcp_configs w s = (Raised (SecretsMalformed exc), log s [LoadSecrets]).
Proof. intros Hload. unfold _load_mcp_configs. run. by rewrite Hload. Qed.

(** What [_load_mcp_configs] returns is never empty. *)
Lemma load_returned configs s s' :
  _load_mcp_configs w s = (Returned configs, s') →
  load_secrets w = SecretsLoaded configs ∧ configs ≠ [] ∧ s' = log s [LoadSecrets].
Proof.
  unfold _load_mcp_configs. run.
  destruct (load_secrets w) as [[|c cs]| |]; run; intros H; simplify_eq. done.
Qed.

End load.

(** ** The payload of [invoke] *)

Section payload.

Variable json_loads : string → loads_result.
Variable w : World.

(** Reading the payload prints at most a message and touches at most the
    arguments file. *)
Lemma read_payload_quiet args args_file s r s' :
  read_payload json_loads w args args_file s = (r, s') →
  ∃ events, s' = log s events ∧ Forall (λ e, reaches_out e = false) events.
Proof.
  unfold read_payload, inline_payload, file_payload, truthy.
  destruct args as [a|]; [case_bool_decide|]; run.
  - destruct (json_loads a); run; intros; simplify_eq.
    + exists []. by rewrite log_nil.
    + eexists [_]. split; [done|]. by repeat constructor.
  - destruct args_file as [p|]; run.
    + destruct (read_text w p) as [text| |]; [destruct (json_loads text)|..]; run;
        intros; simplify_eq; rewrite ?log_log; eexists; split; try done;
        by repeat constructor.
    + intros; simplify_eq. exists []. by rewrite log_nil.
  - destruct args_file as [p|]; run.
    + destruct (read_text w p) as [text| |]; [destruct (json_loads text)|..]; run;
        intros; simplify_eq; rewrite ?log_log; eexists; split; try done;
        by repeat constructor.
    + intros; simplify_eq. exists []. by rewrite log_nil.
Qed.

End payload.

(** ** Unknown services *)

Lemma sorted_Sorted configs : Sorted String.le (sorted configs).
Proof. apply (Sorted_merge_sort String.le). Qed.

Lemma sorted_Permutation configs : sorted configs ≡ₚ configs.*1.
Proof. apply merge_sort_Permutation. Qed.

Lemma string_app_cons c s t : String c s +:+ t = String c (s +:+ t).
Proof. reflexivity. Qed.

Lemma string_app_nil_r s : s +:+ "" = s.
Proof. induction s as [|c s IH]; [done|]. by rewrite string_app_cons, IH. Qed.

Lemma string_app_assoc s t u : s +:+ t +:+ u = (s +:+ t) +:+ u.
Proof. induction s as [|c s IH]; [done|]. by rewrite !string_app_cons, IH. Qed.

Lemma includes_suffix prefix s : includes (prefix +:+ s) s.
Proof. exists prefix, "". by rewrite string_app_nil_r. Qed.

Lemma includes_empty s : includes s "".
Proof. exists s, "". by rewrite string_app_nil_r. Qed.

Lemma not_found_includes service_name configs :
  includes (not_found service_name configs) (String.concat ", " (sorted configs)).
Proof.
  unfold not_found, available. simpl. case_bool_decide as Hjoin.
  - rewrite Hjoin. apply includes_empty.
  - rewrite !string_app_assoc. apply includes_suffix.
Qed.

Lemma contains_false {A} (d : list (string * A)) k : k ∉ d.*1 → contains d k = false.
Proof. intros. unfold contains. by rewrite bool_decide_eq_false. Qed.

Lemma contains_true {A} (d : list (string * A)) k : k ∈ d.*1 → contains d k = true.
Proof. intros. unfold contains. by rewrite bool_decide_eq_true. Qed.

(** C1. When the service name is not a key of the mapping that
    [_load_mcp_configs] returns, [tools] exits with code 4 and [invoke]
    (once it has its payload) with code 9, both codes of the unknown-service
    failure; the run only loads the secrets and prints one red message: no
    client scope is entered and no connector is opened. The message ends with
    the known names, sorted and joined by commas. *)
Theorem unknown_service_rejected
    (json_loads : string → loads_result) (json_dumps : value → string)
    (w : World) (configs : mcp_servers) (service_name : string) (s : state) :
  load_secrets w = SecretsLoaded configs →
  configs ≠ [] →
  service_name ∉ configs.*1 →
  let events := [LoadSecrets; Secho (not_found service_name configs) RED] in
  list_mcp_tools w service_name s = (Exit 4, log s events)
  ∧ (∀ tool_name args args_file payload s1,
       truthy args && truthy_path args_file = false →
       read_payload json_loads w args args_file s = (Returned payload, s1) →
       invoke_mcp_tool json_loads json_dumps w service_name tool_name args args_file s
         = (Exit 9, log s1 events)
       ∧ ∃ before, s1 = log s before ∧ Forall (λ e, connects e = false) (before ++ events))
  ∧ failure_of_code 4 = Some UnknownServiceName
  ∧ failure_of_code 9 = Some UnknownServiceName
  ∧ Forall (λ e, connects e = false) events
  ∧ not_found service_name configs
      = "Service '" +:+ service_name +:+ "' not found. Available: " +:+ available configs
  ∧ includes (not_found service_name configs) (String.concat ", " (sorted configs))
  ∧ Sorted String.le (sorted configs)
  ∧ sorted configs ≡ₚ configs.*1.
Proof.
  intros Hload Hne Hnotin events. split_and!.
  - unfold list_mcp_tools. run. rewrite (load_some w configs s Hload Hne).
    rewrite (contains_false _ _ Hnotin). run. by rewrite log_log.
  - intros tool_name args args_file payload s1 Hboth Hpayload.
    split.
    + unfold invoke_mcp_tool, invoke_with_payload. rewrite Hboth. run.
      rewrite Hpayload. rewrite (load_some w configs s1 Hload Hne).
      rewrite (contains_false _ _ Hnotin). run. by rewrite log_log.
    + destruct (read_payload_quiet _ _ _ _ _ _ _ Hpayload) as (before & -> & Hquiet).
      exists before. split; [done|]. apply Forall_app. split.
      * eapply Forall_impl; [exact Hquiet|]. intros [] ?; done.
      * by repeat constructor.
  - done.
  - done.
  - by repeat constructor.
  - done.
  - apply not_found_includes.
  - apply sorted_Sorted.
  - apply sorted_Permutation.
Qed.

Lemma unknown_service_rejected_witness :
  list_mcp_tools Demo.world "weather" initial
    = (Exit 4,
       log initial
         [LoadSecrets; Secho "Service 'weather' not found. Available: files, search" RED])
  ∧ invoke_mcp_tool Json.loads Json.dumps Demo.world "weather" "forecast"
      None (Some "args.json") initial
    = (Exit 9,
       log initial
         [ReadTextFile "args.json"; LoadSecrets;
          Secho "Service 'weather' not found. Available: files, search" RED]).
Proof.
  assert (Hnotin : "weather" ∉ Demo.servers.*1).
  { apply (bool_decide_unpack _). vm_compute. exact I. }
  destruct (unknown_service_rejected Json.loads Json.dumps Demo.world Demo.servers
              "weather" initial eq_refl ltac:(discriminate) Hnotin)
    as (Htools & Hinvoke & _).
  split; [exact Htools|].
  destruct (Hinvoke "forecast" None (Some "args.json") empty_mapping
              (log initial [ReadTextFile "args.json"]) eq_refl eq_refl) as [Hrun _].
  exact Hrun.
Defined.

(** ** No services configured *)

(** C6. A secrets source that loads with zero services makes
    [_load_mcp_configs] print a yellow message and exit with code 3; a
    missing source exits with code 2 and a source that does not parse lets
    [SecretsMalformed] escape: three different outcomes, standing for
    different failures. The mapping it returns is never empty, and the
    three commands built on it exit with code 3 as well. *)
Theorem no_services_distinguished
    (json_dumps : value → string) (w : World) (s : state) :
  (load_secrets w = SecretsLoaded [] →
     (∃ message,
        _load_mcp_configs w s
          = (Exit 3, log s [LoadSecrets; DiscoverSecretsPath; Secho message YELLOW])
        ∧ includes message (discover_secrets_path w))
     ∧ (list_mcp_services w s).1 = Exit 3
     ∧ (∀ service_name, (list_mcp_tools w service_name s).1 = Exit 3)
     ∧ (∀ service_name tool_name payload,
          (invoke_with_payload json_dumps w service_name tool_name payload s).1 = Exit 3))
  ∧ (∀ exc, load_secrets w = LoadNotFound exc →
       _load_mcp_configs w s = (Exit 2, log s [LoadSecrets; Secho exc RED]))
  ∧ (∀ exc, load_secrets w = LoadMalformed exc →
       _load_mcp_configs w s = (Raised (SecretsMalformed exc), log s [LoadSecrets]))
  ∧ (∀ configs s', _load_mcp_configs w s = (Returned configs, s') → configs ≠ [])
  ∧ failure_of_code 3 = Some NoServicesConfigured
  ∧ failure_of_code 2 = Some NoSecretsSource
  ∧ failure_of_code 3 ≠ failure_of_code 2.
Proof.
  split_and!.
  - intros Hload. split_and!.
    + eexists. split; [by apply load_empty|].
      exists "No MCP services configured in ", ". Populate a *_mcp section (see `.sercrets/secrets.example.toml`).".
      done.
    + unfold list_mcp_services. run. by rewrite (load_empty w s Hload).
    + intros service_name. unfold list_mcp_tools. run. by rewrite (load_empty w s Hload).
    + intros service_name tool_name payload. unfold invoke_with_payload. run.
      by rewrite (load_empty w s Hload).
  - intros exc. apply load_not_found.
  - intros exc. apply load_malformed.
  - intros configs s' Hret. by destruct (load_returned w configs s s' Hret) as (_ & ? & _).
  - done.
  - done.
  - done.
Qed.

Lemma no_services_distinguished_witness :
  (_load_mcp_configs (with_secrets (SecretsLoaded []) Demo.world) initial).1 = Exit 3
  ∧ (_load_mcp_configs (with_secrets (LoadNotFound "Secrets file not found") Demo.world) initial).1
      = Exit 2
  ∧ (_load_mcp_configs (with_secrets (LoadMalformed "Invalid value") Demo.world) initial).1
      = Raised (SecretsMalformed "Invalid value").
Proof.
  split_and!.
  - destruct (no_services_distinguished Json.dumps
                (with_secrets (SecretsLoaded []) Demo.world) initial)
      as (Hempty & _).
    destruct (Hempty eq_refl) as ((message & Hrun & _) & _). by rewrite Hrun.
  - destruct (no_services_distinguished Json.dumps
                (with_secrets (LoadNotFound "Secrets file not found") Demo.world) initial)
      as (_ & Hmissing & _).
    by rewrite (Hmissing _ eq_refl).
  - destruct (no_services_distinguished Json.dumps
                (with_secrets (LoadMalformed "Invalid value") Demo.world) initial)
      as (_ & _ & Hparse & _).
    by rewrite (Hparse _ eq_refl).
Defined.

(** ** The services listing *)

Lemma for_each_fmap {A B} (f : A → B) (body : B → M unit) (l : list A) s :
  for_each (f <$> l) body s = for_each l (λ x, body (f x)) s.
Proof.
  revert s. induction l as [|x l IH]; intros s; [done|]. simpl. run.
  destruct (body (f x) s) as [[[]| |] ?]; auto.
Qed.

Lemma list_mcp_services_loaded w servers s :
  load_secrets w = SecretsLoaded servers → servers ≠ [] →
  list_mcp_services w s
    = for_each (listing_fields <$> servers.*2) (λ fields, echo (listing_line fields))
        (log s [LoadSecrets; Echo "Configured MCP services:"]).
Proof.
  intros Hload Hne. unfold list_mcp_services. run.
  rewrite (load_some w servers s Hload Hne). run. rewrite log_log. simpl.
  by rewrite !for_each_fmap.
Qed.

(** C7. What [services] does (its outcome and everything it prints) is
    determined by the name, the transport and the url of each service: two
    worlds whose secrets agree on these fields, whatever the [auth] fields
    hold, give the same run. *)
Theorem services_listing_hides_auth (w1 w2 : World) (s : state) :
  same_listing (load_secrets w1) (load_secrets w2) →
  discover_secrets_path w1 = discover_secrets_path w2 →
  list_mcp_services w1 s = list_mcp_services w2 s.
Proof.
  intros Hsame Hpath.
  destruct (load_secrets w1) as [a|e1|e1] eqn:H1;
    destruct (load_secrets w2) as [b|e2|e2] eqn:H2; simpl in Hsame; try done.
  - destruct a as [|x a], b as [|y b]; try done.
    + unfold list_mcp_services. run.
      rewrite (load_empty w1 s H1), (load_empty w2 s H2). by rewrite Hpath.
    + rewrite (list_mcp_services_loaded w1 _ s H1), (list_mcp_services_loaded w2 _ s H2);
        [|done..].
      by rewrite Hsame.
  - subst e2. unfold list_mcp_services. run.
    by rewrite (load_not_found w1 _ s H1), (load_not_found w2 _ s H2).
  - subst e2. unfold list_mcp_services. run.
    by rewrite (load_malformed w1 _ s H1), (load_malformed w2 _ s H2).
Qed.

Lemma services_listing_hides_auth_witness :
  list_mcp_services Demo.world initial
    = list_mcp_services (with_secrets (SecretsLoaded Demo.rotated) Demo.world) initial
  ∧ list_mcp_services Demo.world initial
    = (Returned tt,
       log initial
         [LoadSecrets; Echo "Configured MCP services:";
          Echo "- search (http) -> https://svc/mcp"; Echo "- files (stdio) -> None"]).
Proof.
  split.
  - apply (services_listing_hides_auth Demo.world
             (with_secrets (SecretsLoaded Demo.rotated) Demo.world) initial);
      reflexivity.
  - reflexivity.
Defined.

(** ** How the commands can exit *)

Section exits.

Variable json_loads : string → loads_result.
Variable json_dumps : value → string.
Variable w : World.

Lemma for_each_returns {A} (body : A → M unit) (l : list A) s :
  (∀ x s0, ∃ events,
     body x s0 = (Returned tt, log s0 events)
     ∧ Forall (λ e, reaches_out e = false) events) →
  ∃ events,
    for_each l body s = (Returned tt, log s events)
    ∧ Forall (λ e, reaches_out e = false) events.
Proof.
  intros Hbody. revert s. induction l as [|x l IH]; intros s.
  - exists []. by rewrite log_nil.
  - simpl. run. destruct (Hbody x s) as (events & -> & Hquiet).
    destruct (IH (log s events)) as (events' & -> & Hquiet').
    exists (events ++ events'). rewrite log_log. split; [done|]. by apply Forall_app.
Qed.

Lemma for_each_echo_returns {A} (f : A → string) (l : list A) s :
  ∃ events,
    for_each l (λ x, echo (f x)) s = (Returned tt, log s events)
    ∧ Forall (λ e, reaches_out e = false) events.
Proof.
  apply for_each_returns. intros x s0. exists [Echo (f x)].
  split; [done|]. by repeat constructor.
Qed.

Lemma print_result_returns result attachments s :
  ∃ events,
    print_result json_dumps result attachments s = (Returned tt, log s events)
    ∧ Forall (λ e, reaches_out e = false) events.
Proof.
  unfold print_result. run. destruct attachments as [|a l].
  - eexists. rewrite log_log. split; [done|]. by repeat constructor.
  - destruct (for_each_echo_returns (_format_result json_dumps) (a :: l)
                (log (log (log s [Echo "Tool result:"])
                        [Echo (_format_result json_dumps result)])
                   [Echo (String "010"%char "Attachments:")]))
      as (events & Hrun & Hquiet).
    simpl in Hrun. run. rewrite Hrun. rewrite !log_log. eexists. split; [done|].
    simpl. by repeat constructor.
Qed.

Lemma resolve_not_exit configs service s c s' :
  MCPToolClient.resolve w configs service s ≠ (Exit c, s').
Proof.
  unfold MCPToolClient.resolve, MCPToolClient.connector_open.
  destruct (dict_get configs service); run; [|done].
  destruct (dict_get (client s) service); [done|].
  by destruct (transport_open _ _ _ _).
Qed.

Lemma list_tools_not_exit configs service s c s' :
  MCPToolClient.list_tools w configs service s ≠ (Exit c, s').
Proof.
  unfold MCPToolClient.list_tools. run.
  destruct (MCPToolClient.resolve w configs service s) as [[h|c'|e] s1] eqn:Hres;
    [|by apply resolve_not_exit in Hres|done].
  by destruct (transport_list_tools _ _ _).
Qed.

Lemma invoke_tool_not_exit configs service tool arguments s c s' :
  MCPToolClient.invoke_tool w configs service tool arguments s ≠ (Exit c, s').
Proof.
  unfold MCPToolClient.invoke_tool. run.
  destruct (MCPToolClient.resolve w configs service s) as [[h|c'|e] s1] eqn:Hres;
    [|by apply resolve_not_exit in Hres|done].
  destruct (transport_call_tool _ _ _ _ _) as [e|raw]; [done|].
  destruct raw; simpl; try done; by destruct (ResultNormalizer.split_first_text _) as [[]|].
Qed.

Lemma with_client_not_exit {A} (body : M A) s c s' :
  (∀ s0 c0 s1, body s0 ≠ (Exit c0, s1)) →
  MCPToolClient.with_client w body s ≠ (Exit c, s').
Proof.
  intros Hbody. unfold MCPToolClient.with_client, MCPToolClient.client_enter. run.
  destruct (body _) as [[a|c'|e] s1] eqn:Hrun; [|by apply Hbody in Hrun|].
  - destruct (MCPToolClient.client_exit w s1) as [[|f fs] s2]; done.
  - by destruct (MCPToolClient.client_exit w s1) as [[|f fs] s2].
Qed.

(** [invoke], once it has its payload, exits for one of three reasons. *)
Lemma invoke_with_payload_exit service_name tool_name payload s code :
  (invoke_with_payload json_dumps w service_name tool_name payload s).1 = Exit code →
  (code = 2 ∧ ∃ exc, load_secrets w = LoadNotFound exc)
  ∨ (code = 3 ∧ load_secrets w = SecretsLoaded [])
  ∨ (code = 9 ∧ ∃ configs,
       load_secrets w = SecretsLoaded configs ∧ configs ≠ [] ∧ service_name ∉ configs.*1).
Proof.
  unfold invoke_with_payload. run.
  destruct (load_secrets w) as [[|x configs]|exc|exc] eqn:Hload.
  - rewrite (load_empty w s Hload). simpl. intros [= <-]. auto.
  - rewrite (load_some w _ s Hload); [|done].
    destruct (contains (x :: configs) service_name) eqn:Hin; run.
    + destruct (MCPToolClient.with_client _ _ _) as [[[result attachments]|c|e] s1] eqn:Hrun;
        simpl.
      * destruct (print_result_returns result attachments s1) as (events & -> & _). done.
      * exfalso. revert Hrun. apply with_client_not_exit.
        intros ???. apply invoke_tool_not_exit.
      * done.
    + intros [= <-]. right; right. split; [done|]. exists (x :: configs).
      split_and!; [done..|]. unfold contains in Hin. by apply bool_decide_eq_false in Hin.
  - rewrite (load_not_found w _ s Hload). simpl. intros [= <-]. eauto.
  - rewrite (load_malformed w _ s Hload). done.
Qed.

(** [tools] exits for one of three reasons. *)
Lemma list_mcp_tools_exit service_name s code :
  (list_mcp_tools w service_name s).1 = Exit code →
  (code = 2 ∧ ∃ exc, load_secrets w = LoadNotFound exc)
  ∨ (code = 3 ∧ load_secrets w = SecretsLoaded [])
  ∨ (code = 4 ∧ ∃ configs,
       load_secrets w = SecretsLoaded configs ∧ configs ≠ [] ∧ service_name ∉ configs.*1).
Proof.
  unfold list_mcp_tools. run.
  destruct (load_secrets w) as [[|x configs]|exc|exc] eqn:Hload.
  - rewrite (load_empty w s Hload). simpl. intros [= <-]. auto.
  - rewrite (load_some w _ s Hload); [|done].
    destruct (contains (x :: configs) service_name) eqn:Hin; run.
    + destruct (MCPToolClient.with_client _ _ _) as [[tools|c|e] s1] eqn:Hrun; simpl.
      * destruct tools as [|t tools]; [done|].
        match goal with
        | |- context [for_each ?l ?body ?s0] =>
            destruct (for_each_returns body l s0) as (events & -> & _); [|done]
        end.
        intros tool s0. case_bool_decide; eexists [_]; (split; [done|]);
          by repeat constructor.
      * exfalso. revert Hrun. apply with_client_not_exit.
        intros ???. apply list_tools_not_exit.
      * done.
    + intros [= <-]. right; right. split; [done|]. exists (x :: configs).
      split_and!; [done..|]. unfold contains in Hin. by apply bool_decide_eq_false in Hin.
  - rewrite (load_not_found w _ s Hload). simpl. intros [= <-]. eauto.
  - rewrite (load_malformed w _ s Hload). done.
Qed.

End exits.


(** ** The argument sources of [invoke] *)

Section sources.

Variable json_loads : string → loads_result.
Variable json_dumps : value → string.
Variable w : World.

Lemma truthy_true args : truthy args = true ↔ ∃ a, args = Some a ∧ a ≠ "".
Proof.
  destruct args as [a|]; simpl.
  - rewrite bool_decide_eq_true. split; [eauto|]. by intros (? & [= <-] & ?).
  - split; [done|]. by intros (? & ? & _).
Qed.

Lemma truthy_false args : truthy args = false ↔ args = None ∨ args = Some "".
Proof.
  destruct args as [a|]; simpl.
  - rewrite bool_decide_eq_false. split.
    + intros Hnn. right. f_equal. by destruct (decide (a = "")).
    + intros [|[= ->]]; [done|]. by intros [].
  - split; [auto|done].
Qed.

(** With a falsy [--args] the payload is the one of [--args-file], or [{}]. *)
Lemma read_payload_falsy args args_file s :
  truthy args = false →
  read_payload json_loads w args args_file s
    = match args_file with
      | Some file => file_payload json_loads w file s
      | None => (Returned empty_mapping, s)
      end.
Proof.
  intros Hfalsy. unfold read_payload. destruct args as [a|].
  - rewrite Hfalsy. by destruct args_file.
  - by destruct args_file.
Qed.

(** With a truthy [--args] the payload is the one of [--args]. *)
Lemma read_payload_truthy a args_file s :
  a ≠ "" →
  read_payload json_loads w (Some a) args_file s = inline_payload json_loads a s.
Proof.
  intros Hne. unfold read_payload. simpl. by rewrite bool_decide_eq_true_2.
Qed.

(** Reading the payload exits for one of three reasons. *)
Lemma read_payload_exit args args_file s code :
  (read_payload json_loads w args args_file s).1 = Exit code →
  (code = 6 ∧ ∃ a exc, args = Some a ∧ a ≠ "" ∧ json_loads a = JSONDecodeError exc)
  ∨ (code = 7 ∧ ∃ file text exc,
       truthy args = false ∧ args_file = Some file ∧ read_text w file = ReadText text
       ∧ json_loads text = JSONDecodeError exc)
  ∨ (code = 8 ∧ ∃ file exc,
       truthy args = false ∧ args_file = Some file ∧ read_text w file = ReadOSError exc).
Proof.
  destruct (truthy args) eqn:Htruthy.
  - apply truthy_true in Htruthy as (a & -> & Hne).
    rewrite read_payload_truthy by done. unfold inline_payload.
    destruct (json_loads a) as [v|exc] eqn:Hloads; run; [done|].
    intros [= <-]. left. eauto 10.
  - rewrite read_payload_falsy by done. destruct args_file as [file|]; [|done].
    unfold file_payload. run.
    destruct (read_text w file) as [text|exc|exc] eqn:Hread; run.
    + destruct (json_loads text) as [v|exc] eqn:Hloads; run; [done|].
      intros [= <-]. right; left. eauto 10.
    + intros [= <-]. right; right. eauto 10.
    + done.
Qed.

(** [invoke] with both sources truthy. *)
Lemma invoke_both service_name tool_name args args_file s :
  truthy args = true → truthy_path args_file = true →
  invoke_mcp_tool json_loads json_dumps w service_name tool_name args args_file s
    = (Exit 5, log s [Secho "Use either --args or --args-file, not both." RED]).
Proof. intros Ha Hf. unfold invoke_mcp_tool. rewrite Ha, Hf. by run. Qed.

(** [invoke] with at most one source truthy. *)
Lemma invoke_one service_name tool_name args args_file s :
  truthy args && truthy_path args_file = false →
  invoke_mcp_tool json_loads json_dumps w service_name tool_name args args_file s
    = (payload ← read_payload json_loads w args args_file;
       invoke_with_payload json_dumps w service_name tool_name payload) s.
Proof. intros Hone. unfold invoke_mcp_tool. by rewrite Hone. Qed.

(** A malformed [--args]. *)
Lemma invoke_malformed_inline service_name tool_name a exc s :
  a ≠ "" → json_loads a = JSONDecodeError exc →
  invoke_mcp_tool json_loads json_dumps w service_name tool_name (Some a) None s
    = (Exit 6, log s [Secho ("Invalid JSON for --args: " +:+ exc) RED]).
Proof.
  intros Hne Hloads. rewrite invoke_one by (simpl; apply andb_false_r).
  unfold mbind, M_bind, bind. rewrite read_payload_truthy by done.
  unfold inline_payload. rewrite Hloads. by run.
Qed.

(** A malformed arguments file. *)
Lemma invoke_malformed_file service_name tool_name args file text exc s :
  truthy args = false → read_text w file = ReadText text →
  json_loads text = JSONDecodeError exc →
  invoke_mcp_tool json_loads json_dumps w service_name tool_name args (Some file) s
    = (Exit 7,
       log s [ReadTextFile file;
              Secho ("Invalid JSON in file " +:+ file +:+ ": " +:+ exc) RED]).
Proof.
  intros Hfalsy Hread Hloads. rewrite invoke_one by (by rewrite Hfalsy).
  unfold mbind, M_bind, bind. rewrite read_payload_falsy by done.
  unfold file_payload. run. rewrite Hread, Hloads. run. by rewrite log_log.
Qed.

(** An unreadable arguments file. *)
Lemma invoke_unreadable service_name tool_name args file exc s :
  truthy args = false → read_text w file = ReadOSError exc →
  invoke_mcp_tool json_loads json_dumps w service_name tool_name args (Some file) s
    = (Exit 8,
       log s [ReadTextFile file;
              Secho ("Failed to read arguments file " +:+ file +:+ ": " +:+ exc) RED]).
Proof.
  intros Hfalsy Hread. rewrite invoke_one by (by rewrite Hfalsy).
  unfold mbind, M_bind, bind. rewrite read_payload_falsy by done.
  unfold file_payload. run. rewrite Hread. run. by rewrite log_log.
Qed.

End sources.


(** ** Both argument sources *)

(** C2, as the claim states it, fails: with [--args] given as the empty
    string and [--args-file] given too, [invoke] is not rejected; it reads
    the file, loads the secrets and calls the tool. *)
Lemma both_sources_not_always_rejected :
  invoke_mcp_tool Json.loads Json.dumps Demo.world "search" "query"
    (Some "") (Some "args.json") initial
  = (Returned tt,
     {| trace :=
          [ReadTextFile "args.json"; LoadSecrets; ClientEnter; ConnOpen "search" true;
           ConnCallTool 0 "query" (VDict []); ConnClose 0 None; ClientExit;
           Echo "Tool result:"; Echo "hit"; Echo (String "010"%char "Attachments:");
           Echo "blob:7"; Echo "more"];
        connectors := [{| conn_service := "search"; conn_closed := true |}];
        client := [("search", 0%nat)] |})
  ∧ ¬ rejected_early
        (invoke_mcp_tool Json.loads Json.dumps Demo.world "search" "query"
           (Some "") (Some "args.json"))
        initial.
Proof.
  split; [by vm_compute|].
  intros (code & events & Hrun & _). vm_compute in Hrun. discriminate Hrun.
Qed.

(** C2, amended. When [--args] is a non-empty string and [--args-file] is
    given, [invoke] prints one red message and exits with code 5, the code of
    the both-sources failure: it reads no file, loads no secrets and enters
    no client scope. *)
Theorem both_sources_rejected
    (json_loads : string → loads_result) (json_dumps : value → string) (w : World)
    (service_name tool_name a : string) (file : path) (s : state) :
  a ≠ "" →
  invoke_mcp_tool json_loads json_dumps w service_name tool_name (Some a) (Some file) s
    = (Exit 5, log s [Secho "Use either --args or --args-file, not both." RED])
  ∧ rejected_early
      (invoke_mcp_tool json_loads json_dumps w service_name tool_name (Some a) (Some file)) s
  ∧ failure_of_code 5 = Some BothArgumentSources.
Proof.
  intros Hne.
  assert (Hrun : invoke_mcp_tool json_loads json_dumps w service_name tool_name
                   (Some a) (Some file) s
                 = (Exit 5, log s [Secho "Use either --args or --args-file, not both." RED])).
  { apply invoke_both; [|done]. apply truthy_true. eauto. }
  split_and!; [done| |done].
  eexists _, _. split; [exact Hrun|]. by repeat constructor.
Qed.

Lemma both_sources_rejected_witness :
  invoke_mcp_tool Json.loads Json.dumps Demo.world "search" "query"
    (Some "{}") (Some "args.json") initial
  = (Exit 5, log initial [Secho "Use either --args or --args-file, not both." RED]).
Proof.
  apply (both_sources_rejected Json.loads Json.dumps Demo.world "search" "query"
           "{}" "args.json" initial).
  discriminate.
Defined.

(** ** Malformed payloads *)

Lemma string_length_app s t : String.length (s +:+ t) = (String.length s + String.length t)%nat.
Proof. induction s as [|c s IH]; [done|]. rewrite string_app_cons. simpl. by rewrite IH. Qed.

Lemma includes_length s2 s1 : includes s2 s1 → (String.length s1 ≤ String.length s2)%nat.
Proof. intros (before & after & ->). rewrite !string_length_app. lia. Qed.




(** ** One failure, one kind of exit code *)

Section kinds.

Variable json_loads : string → loads_result.
Variable json_dumps : value → string.
Variable w : World.

(** Every exit code of [invoke] stands for a failure that is met. *)
Lemma invoke_mcp_tool_exit service_name tool_name args args_file s code :
  (invoke_mcp_tool json_loads json_dumps w service_name tool_name args args_file s).1
    = Exit code →
  ∃ k, failure_of_code code = Some k
       ∧ failure_met json_loads w service_name args args_file k
       ∧ (k = BothArgumentSources ∨ truthy args && truthy_path args_file = false).
Proof.
  destruct (truthy args && truthy_path args_file) eqn:Hboth.
  - apply andb_true_iff in Hboth as [Ha Hf].
    rewrite (invoke_both _ _ _ _ _ _ _ _ Ha Hf). intros [= <-].
    exists BothArgumentSources. split_and!; [done| |by left]. split.
    + by apply truthy_true.
    + destruct args_file; [eauto|done].
  - rewrite invoke_one by done. unfold mbind, M_bind, bind.
    destruct (read_payload json_loads w args args_file s) as [[payload|c|e] s1] eqn:Hpayload;
      simpl.
    + intros Hexit. apply invoke_with_payload_exit in Hexit
        as [(-> & exc & Hload)|[(-> & Hload)|(-> & configs & Hload & _ & Hnotin)]].
      * exists NoSecretsSource. split_and!; [done|simpl; eauto|by right].
      * exists NoServicesConfigured. split_and!; [done|simpl; eauto|by right].
      * exists UnknownServiceName. split_and!; [done|simpl; eauto|by right].
    + intros [= <-].
      destruct (read_payload_exit json_loads w args args_file s c) as
        [(-> & a & exc & -> & Hne & Hloads)
        |[(-> & file & text & exc & Hfalsy & -> & Hread & Hloads)
         |(-> & file & exc & Hfalsy & -> & Hread)]]; [by rewrite Hpayload|..].
      * exists MalformedJSON. split_and!; [done|simpl; eauto 10|by right].
      * exists MalformedJSON. split_and!; [done|simpl; eauto 10|by right].
      * exists FileUnreadable. split_and!; [done|simpl; eauto 10|by right].
    + done.
Qed.

End kinds.

(** C4. The exit codes tell the failures apart. Whenever [invoke] or [tools]
    exits with a code, the code stands for one failure and that failure is
    the one met; each of "no services configured" (3), "unknown service" (4
    for [tools], 9 for [invoke]), "both argument sources given" (5),
    "malformed JSON" (6 inline, 7 from the file) and "file unreadable" (8)
    is reported under its own codes, and the five kinds are pairwise
    different. *)
Theorem failures_distinguished
    (json_loads : string → loads_result) (json_dumps : value → string) (w : World)
    (service_name tool_name : string) (s : state) :
  (∀ args args_file code,
     (invoke_mcp_tool json_loads json_dumps w service_name tool_name args args_file s).1
       = Exit code →
     ∃ k, failure_of_code code = Some k
          ∧ failure_met json_loads w service_name args args_file k)
  ∧ (∀ code,
       (list_mcp_tools w service_name s).1 = Exit code →
       ∃ k, failure_of_code code = Some k
            ∧ failure_met json_loads w service_name None None k)
  ∧ (∀ args args_file,
       truthy args = true → truthy_path args_file = true →
       (invoke_mcp_tool json_loads json_dumps w service_name tool_name args args_file s).1
         = Exit 5)
  ∧ (∀ a exc,
       a ≠ "" → json_loads a = JSONDecodeError exc →
       (invoke_mcp_tool json_loads json_dumps w service_name tool_name (Some a) None s).1
         = Exit 6)
  ∧ (∀ args file text exc,
       truthy args = false → read_text w file = ReadText text →
       json_loads text = JSONDecodeError exc →
       (invoke_mcp_tool json_loads json_dumps w service_name tool_name args (Some file) s).1
         = Exit 7)
  ∧ (∀ args file exc,
       truthy args = false → read_text w file = ReadOSError exc →
       (invoke_mcp_tool json_loads json_dumps w service_name tool_name args (Some file) s).1
         = Exit 8)
  ∧ (load_secrets w = SecretsLoaded [] →
       (list_mcp_tools w service_name s).1 = Exit 3
       ∧ ∀ args args_file payload s1,
           truthy args && truthy_path args_file = false →
           read_payload json_loads w args args_file s = (Returned payload, s1) →
           (invoke_mcp_tool json_loads json_dumps w service_name tool_name args args_file s).1
             = Exit 3)
  ∧ (∀ configs,
       load_secrets w = SecretsLoaded configs → configs ≠ [] →
       service_name ∉ configs.*1 →
       (list_mcp_tools w service_name s).1 = Exit 4
       ∧ ∀ args args_file payload s1,
           truthy args && truthy_path args_file = false →
           read_payload json_loads w args args_file s = (Returned payload, s1) →
           (invoke_mcp_tool json_loads json_dumps w service_name tool_name args args_file s).1
             = Exit 9)
  ∧ NoDup [failure_of_code 3; failure_of_code 4; failure_of_code 5;
           failure_of_code 6; failure_of_code 8]
  ∧ failure_of_code 9 = failure_of_code 4
  ∧ failure_of_code 7 = failure_of_code 6.
Proof.
  split_and!.
  - intros args args_file code Hexit.
    destruct (invoke_mcp_tool_exit _ _ _ _ _ _ _ _ _ Hexit) as (k & ? & ? & _). eauto.
  - intros code Hexit. apply list_mcp_tools_exit in Hexit
      as [(-> & exc & Hload)|[(-> & Hload)|(-> & configs & Hload & _ & Hnotin)]].
    + exists NoSecretsSource. simpl. eauto.
    + exists NoServicesConfigured. simpl. eauto.
    + exists UnknownServiceName. simpl. eauto.
  - intros args args_file Ha Hf. by rewrite invoke_both.
  - intros a exc Hne Hloads.
    by rewrite (invoke_malformed_inline json_loads json_dumps w service_name tool_name
                  a exc s Hne Hloads).
  - intros args file text exc Hfalsy Hread Hloads.
    by rewrite (invoke_malformed_file json_loads json_dumps w service_name tool_name
                  args file text exc s Hfalsy Hread Hloads).
  - intros args file exc Hfalsy Hread. by rewrite (invoke_unreadable _ _ _ _ _ _ _ _ _ Hfalsy Hread).
  - intros Hload. split.
    + unfold list_mcp_tools. unfold mbind, M_bind, bind. by rewrite (load_empty w s Hload).
    + intros args args_file payload s1 Hone Hpayload. rewrite invoke_one by done.
      unfold mbind, M_bind, bind. rewrite Hpayload. unfold invoke_with_payload.
      unfold mbind, M_bind, bind. by rewrite (load_empty w s1 Hload).
  - intros configs Hload Hne Hnotin. split.
    + unfold list_mcp_tools. unfold mbind, M_bind, bind.
      rewrite (load_some w configs s Hload Hne). by rewrite (contains_false _ _ Hnotin).
    + intros args args_file payload s1 Hone Hpayload. rewrite invoke_one by done.
      unfold mbind, M_bind, bind. rewrite Hpayload. unfold invoke_with_payload.
      unfold mbind, M_bind, bind. rewrite (load_some w configs s1 Hload Hne).
      by rewrite (contains_false _ _ Hnotin).
  - apply (bool_decide_unpack _). by vm_compute.
  - done.
  - done.
Qed.

Lemma failures_distinguished_witness :
  (invoke_mcp_tool Json.loads Json.dumps Demo.world "weather" "forecast"
     (Some "{}") (Some "args.json") initial).1 = Exit 5
  ∧ (invoke_mcp_tool Json.loads Json.dumps Demo.world "weather" "forecast"
       (Some "{bad") None initial).1 = Exit 6
  ∧ (invoke_mcp_tool Json.loads Json.dumps Demo.world "weather" "forecast"
       None (Some "bad.json") initial).1 = Exit 7
  ∧ (invoke_mcp_tool Json.loads Json.dumps Demo.world "weather" "forecast"
       None (Some "nope.json") initial).1 = Exit 8
  ∧ (invoke_mcp_tool Json.loads Json.dumps Demo.world "weather" "forecast"
       None (Some "args.json") initial).1 = Exit 9
  ∧ (list_mcp_tools Demo.world "weather" initial).1 = Exit 4
  ∧ (list_mcp_tools (with_secrets (SecretsLoaded []) Demo.world) "weather" initial).1
    = Exit 3.
Proof.
  destruct (failures_distinguished Json.loads Json.dumps Demo.world "weather" "forecast"
              initial)
    as (_ & _ & Hboth & Hinline & Hfile & Hread & _ & Hunknown & _).
  destruct (failures_distinguished Json.loads Json.dumps
              (with_secrets (SecretsLoaded []) Demo.world) "weather" "forecast" initial)
    as (_ & _ & _ & _ & _ & _ & Hempty & _).
  assert (Hnotin : "weather" ∉ Demo.servers.*1).
  { apply (bool_decide_unpack _). vm_compute. exact I. }
  destruct (Hunknown Demo.servers eq_refl ltac:(discriminate) Hnotin) as [Htools Hinvoke].
  split_and!.
  - apply Hboth; reflexivity.
  - apply (Hinline "{bad"
             "Expecting property name enclosed in double quotes: line 1 column 2 (char 1)");
      [discriminate|by vm_compute].
  - apply (Hfile None "bad.json" "{bad"
             "Expecting property name enclosed in double quotes: line 1 column 2 (char 1)");
      [reflexivity|reflexivity|by vm_compute].
  - apply (Hread None "nope.json" "[Errno 2] No such file or directory: 'nope.json'");
      reflexivity.
  - apply (Hinvoke None (Some "args.json") empty_mapping
             (log initial [ReadTextFile "args.json"])); reflexivity.
  - exact Htools.
  - apply Hempty. reflexivity.
Defined.

(** ** An empty or absent [--args] *)



(** ** The client scope *)

Section scope.

Variable w : World.

Lemma connector_close_spec h s :
  let s' := (MCPToolClient.connector_close w h s).2 in
  length (connectors s') = length (connectors s)
  ∧ client s' = client s
  ∧ (∀ h', h' ≠ h → connectors s' !! h' = connectors s !! h')
  ∧ ((h < length (connectors s))%nat →
       ∃ c, connectors s' !! h = Some c ∧ conn_closed c = true)
  ∧ (∀ h' c, connectors s !! h' = Some c → conn_closed c = true →
       connectors s' !! h' = Some c).
Proof.
  unfold MCPToolClient.connector_close.
  destruct (connectors s !! h) as [c|] eqn:Hh; [destruct (conn_closed c) eqn:Hc|]; simpl.
  - split_and!; try done. intros _. eauto.
  - split_and!; try done.
    + by rewrite length_insert.
    + intros h' Hne. by rewrite list_lookup_insert_ne.
    + intros Hlt. eexists. split; [by apply list_lookup_insert_eq|done].
    + intros h' c' Hh' Hc'. destruct (decide (h' = h)) as [->|Hne].
      * congruence.
      * by rewrite list_lookup_insert_ne.
  - split_and!; try done. intros Hlt. apply lookup_ge_None in Hh. lia.
Qed.

(** Closing a connector that is closed changes nothing and reports
    nothing. *)
Lemma connector_close_closed h s c :
  connectors s !! h = Some c → conn_closed c = true →
  MCPToolClient.connector_close w h s = (None, s).
Proof. intros Hh Hc. unfold MCPToolClient.connector_close. by rewrite Hh, Hc. Qed.

(** Closing twice is closing once. *)
Lemma connector_close_twice h s :
  MCPToolClient.connector_close w h (MCPToolClient.connector_close w h s).2
  = (None, (MCPToolClient.connector_close w h s).2).
Proof.
  destruct (connector_close_spec h s) as (Hlen & _ & _ & Hclosed & _).
  destruct (decide (h < length (connectors s))%nat) as [Hlt|Hge].
  - destruct (Hclosed Hlt) as (c & Hh & Hc). by eapply connector_close_closed.
  - unfold MCPToolClient.connector_close at 1.
    rewrite (proj2 (lookup_ge_None _ _)); [done|]. lia.
Qed.

Lemma close_all_spec hs s :
  let s' := (MCPToolClient.close_all w hs s).2 in
  length (connectors s') = length (connectors s)
  ∧ client s' = client s
  ∧ (∀ h', h' ∉ hs → connectors s' !! h' = connectors s !! h')
  ∧ (∀ h, h ∈ hs → (h < length (connectors s))%nat →
       ∃ c, connectors s' !! h = Some c ∧ conn_closed c = true)
  ∧ (∀ h' c, connectors s !! h' = Some c → conn_closed c = true →
       connectors s' !! h' = Some c).
Proof.
  revert s. induction hs as [|h hs IH]; intros s; simpl.
  - split_and!; try done. intros h Hin. by apply elem_of_nil in Hin.
  - destruct (connector_close_spec h s) as (Hlen1 & Hcl1 & Hother1 & Hclosed1 & Hkeep1).
    destruct (MCPToolClient.connector_close w h s) as [failure s1]; simpl in *.
    destruct (IH s1) as (Hlen2 & Hcl2 & Hother2 & Hclosed2 & Hkeep2).
    destruct (MCPToolClient.close_all w hs s1) as [failures s2]; simpl in *.
    split_and!.
    + congruence.
    + congruence.
    + intros h' Hnotin. apply not_elem_of_cons in Hnotin as [Hne Hnotin].
      rewrite Hother2 by done. by apply Hother1.
    + intros h' Hin Hlt. apply elem_of_cons in Hin as [->|Hin].
      * destruct (Hclosed1 Hlt) as (c & Hh & Hc). exists c. split; [|done].
        by apply Hkeep2.
      * apply Hclosed2; [done|]. by rewrite Hlen1.
    + intros h' c Hh' Hc. apply Hkeep2; [|done]. by apply Hkeep1.
Qed.

Lemma client_exit_spec s :
  let s' := (MCPToolClient.client_exit w s).2 in
  length (connectors s') = length (connectors s)
  ∧ (∀ h', h' ∉ (client s).*2 → connectors s' !! h' = connectors s !! h')
  ∧ (∀ h, h ∈ (client s).*2 → (h < length (connectors s))%nat →
       ∃ c, connectors s' !! h = Some c ∧ conn_closed c = true)
  ∧ (∀ h' c, connectors s !! h' = Some c → conn_closed c = true →
       connectors s' !! h' = Some c).
Proof.
  unfold MCPToolClient.client_exit.
  destruct (close_all_spec (reverse (client s).*2) s) as (Hlen & _ & Hother & Hclosed & Hkeep).
  destruct (MCPToolClient.close_all w _ s) as [failures s1]; simpl in *.
  split_and!; [done| | |done].
  - intros h' Hnotin. apply Hother. by rewrite elem_of_reverse.
  - intros h Hin. apply Hclosed. by rewrite elem_of_reverse.
Qed.

Lemma held_from_log n s events : held_from n s → held_from n (log s events).
Proof. done. Qed.

Lemma connector_open_keeps service secrets :
  keeps_scope (MCPToolClient.connector_open w service secrets).
Proof.
  intros n s r s' (Hn & Hheld & Hrange). unfold MCPToolClient.connector_open.
  destruct (transport_open _ _ _ _); intros [= <- <-]; simpl.
  - split; [|by apply prefix_app_r].
    split_and!; simpl; rewrite ?length_app, ?fmap_app; simpl.
    + lia.
    + intros h Hh. apply elem_of_app.
      destruct (decide (h < length (connectors s))%nat) as [Hlt|Hge].
      * left. apply Hheld. lia.
      * right. apply list_elem_of_singleton. lia.
    + intros h [Hin|Hin%list_elem_of_singleton]%elem_of_app.
      * apply Hrange in Hin. lia.
      * lia.
  - done.
Qed.

Lemma resolve_keeps configs service :
  keeps_scope (MCPToolClient.resolve w configs service).
Proof.
  intros n s r s' Hheld. unfold MCPToolClient.resolve.
  destruct (dict_get configs service) as [secrets|]; run.
  - destruct (dict_get (client s) service) as [h|].
    + by intros [= <- <-].
    + by apply connector_open_keeps.
  - by intros [= <- <-].
Qed.

Lemma list_tools_keeps configs service :
  keeps_scope (MCPToolClient.list_tools w configs service).
Proof.
  intros n s r s' Hheld. unfold MCPToolClient.list_tools. run.
  destruct (MCPToolClient.resolve w configs service s) as [[h|c|e] s1] eqn:Hres;
    destruct (resolve_keeps configs service n s _ s1 Hheld Hres) as [Hheld1 Hprefix].
  - destruct (transport_list_tools _ _ _); by intros [= <- <-].
  - by intros [= <- <-].
  - by intros [= <- <-].
Qed.

Lemma invoke_tool_keeps configs service tool arguments :
  keeps_scope (MCPToolClient.invoke_tool w configs service tool arguments).
Proof.
  intros n s r s' Hheld. unfold MCPToolClient.invoke_tool. run.
  destruct (MCPToolClient.resolve w configs service s) as [[h|c|e] s1] eqn:Hres;
    destruct (resolve_keeps configs service n s _ s1 Hheld Hres) as [Hheld1 Hprefix].
  - destruct (transport_call_tool _ _ _ _ _) as [e|[payload|items|detail|]]; simpl;
      try (by intros [= <- <-]).
    destruct (ResultNormalizer.split_first_text items) as [[text others]|];
      by intros [= <- <-].
  - by intros [= <- <-].
  - by intros [= <- <-].
Qed.

Lemma run_call_keeps configs c : keeps_scope (MCPToolClient.run_call w configs c).
Proof.
  intros n s r s' Hheld. destruct c as [service|service tool arguments]; simpl; run.
  - destruct (MCPToolClient.list_tools w configs service s) as [[tools|c|e] s1] eqn:Hrun;
      destruct (list_tools_keeps configs service n s _ s1 Hheld Hrun);
      by intros [= <- <-].
  - destruct (MCPToolClient.invoke_tool w configs service tool arguments s)
      as [[result|c|e] s1] eqn:Hrun;
      destruct (invoke_tool_keeps configs service tool arguments n s _ s1 Hheld Hrun);
      by intros [= <- <-].
Qed.

Lemma run_calls_keeps configs calls : keeps_scope (MCPToolClient.run_calls w configs calls).
Proof.
  unfold MCPToolClient.run_calls.
  induction calls as [|c calls IH]; intros n s r s' Hheld; simpl.
  - by intros [= <- <-].
  - run. destruct (MCPToolClient.run_call w configs c s) as [[[]|code|e] s1] eqn:Hrun;
      destruct (run_call_keeps configs c n s _ s1 Hheld Hrun) as [Hheld1 Hprefix1].
    + intros Hrest. destruct (IH n s1 r s' Hheld1 Hrest) as [Hheld2 Hprefix2].
      split; [done|]. by etrans.
    + by intros [= <- <-].
    + by intros [= <- <-].
Qed.

(** The state in which a scope ends is the one its exit leaves. *)
Lemma with_client_state {A} (body : M A) s :
  (MCPToolClient.with_client w body s).2
  = (MCPToolClient.client_exit w
       (body {| trace := trace s ++ [ClientEnter]; connectors := connectors s;
                client := [] |}).2).2.
Proof.
  unfold MCPToolClient.with_client, MCPToolClient.client_enter. run.
  destruct (body _) as [[a|c|e] s1]; simpl;
    destruct (MCPToolClient.client_exit w s1) as [[|f fs] s2]; done.
Qed.

(** When a scope ends, however its body ended, the connectors opened in it
    are closed and the ones that existed before are as they were. *)
Lemma with_client_closes {A} (body : M A) s :
  keeps_scope body →
  closed_from (length (connectors s)) (MCPToolClient.with_client w body s).2
  ∧ ∀ h, (h < length (connectors s))%nat →
      connectors (MCPToolClient.with_client w body s).2 !! h = connectors s !! h.
Proof.
  intros Hbody. rewrite with_client_state.
  set (s0 := {| trace := trace s ++ [ClientEnter]; connectors := connectors s; client := [] |}).
  assert (Hheld0 : held_from (length (connectors s)) s0).
  { split_and!; simpl; [done|intros h ?; lia|]. intros h Hin. by apply elem_of_nil in Hin. }
  destruct (body s0) as [r s1] eqn:Hrun.
  destruct (Hbody _ _ _ _ Hheld0 Hrun) as [(Hn & Hheld & Hrange) [new Hprefix]]. simpl in *.
  destruct (client_exit_spec s1) as (Hlen & Hother & Hclosed & _).
  split.
  - intros h c Hge Hh.
    assert (h < length (connectors s1))%nat as Hlt.
    { rewrite <- Hlen. by eapply lookup_lt_Some. }
    destruct (Hclosed h) as (c' & Hh' & Hc'); [apply Hheld; lia|done|]. congruence.
  - intros h Hlt. rewrite Hother.
    + rewrite Hprefix. by apply lookup_app_l.
    + intros Hin. apply Hrange in Hin. lia.
Qed.

End scope.

Section commands_scope.

Variable json_loads : string → loads_result.
Variable json_dumps : value → string.
Variable w : World.

Lemma closed_from_same n s s' :
  connectors s' = connectors s → closed_from n s → closed_from n s'.
Proof. intros Heq Hclosed h c. rewrite Heq. apply Hclosed. Qed.

Lemma closed_from_length s : closed_from (length (connectors s)) s.
Proof. intros h c Hge Hh. apply lookup_lt_Some in Hh. lia. Qed.

(** No connector has appeared. *)
Ltac no_connector :=
  let Hh := fresh in intros ? ? ? Hh; apply lookup_lt_Some in Hh; simpl in *; lia.

Lemma list_mcp_tools_closes service_name s :
  closed_from (length (connectors s)) (list_mcp_tools w service_name s).2.
Proof.
  unfold list_mcp_tools. unfold mbind, M_bind, bind.
  destruct (_load_mcp_configs w s) as [[configs|c|e] s1] eqn:Hload; simpl.
  - apply load_returned in Hload as (_ & _ & ->).
    destruct (contains configs service_name).
    + simpl.
      destruct (with_client_closes w (MCPToolClient.list_tools w configs service_name)
                  (log s [LoadSecrets]) (list_tools_keeps w configs service_name))
        as [Hclosed _].
      destruct (MCPToolClient.with_client _ _ _) as [[tools|c|e] s1]; simpl in *; try done.
      destruct tools as [|t tools]; [done|].
      match goal with
      | |- context [for_each ?l ?body ?s0] =>
          destruct (for_each_returns body l s0) as (events & -> & _)
      end.
      * intros tool s0. case_bool_decide; eexists [_]; (split; [done|]);
          by repeat constructor.
      * done.
    + run. no_connector.
  - unfold _load_mcp_configs in Hload. run.
    destruct (load_secrets w) as [[|x configs]| |]; run; simplify_eq; no_connector.
  - unfold _load_mcp_configs in Hload. run.
    destruct (load_secrets w) as [[|x configs]| |]; run; simplify_eq; no_connector.
Qed.

Lemma invoke_with_payload_closes service_name tool_name payload s :
  closed_from (length (connectors s))
    (invoke_with_payload json_dumps w service_name tool_name payload s).2.
Proof.
  unfold invoke_with_payload. unfold mbind, M_bind, bind.
  destruct (_load_mcp_configs w s) as [[configs|c|e] s1] eqn:Hload; simpl.
  - apply load_returned in Hload as (_ & _ & ->).
    destruct (contains configs service_name).
    + simpl.
      destruct (with_client_closes w
                  (MCPToolClient.invoke_tool w configs service_name tool_name payload)
                  (log s [LoadSecrets])
                  (invoke_tool_keeps w configs service_name tool_name payload))
        as [Hclosed _].
      destruct (MCPToolClient.with_client _ _ _) as [[[result attachments]|c|e] s1];
        simpl in *; try done.
      by destruct (print_result_returns json_dumps result attachments s1) as (events & -> & _).
    + run. no_connector.
  - unfold _load_mcp_configs in Hload. run.
    destruct (load_secrets w) as [[|x configs]| |]; run; simplify_eq; no_connector.
  - unfold _load_mcp_configs in Hload. run.
    destruct (load_secrets w) as [[|x configs]| |]; run; simplify_eq; no_connector.
Qed.

Lemma invoke_mcp_tool_closes service_name tool_name args args_file s :
  closed_from (length (connectors s))
    (invoke_mcp_tool json_loads json_dumps w service_name tool_name args args_file s).2.
Proof.
  destruct (truthy args && truthy_path args_file) eqn:Hboth.
  - apply andb_true_iff in Hboth as [Ha Hf]. rewrite invoke_both by done.
    no_connector.
  - rewrite invoke_one by done. unfold mbind, M_bind, bind.
    destruct (read_payload json_loads w args args_file s) as [[payload|c|e] s1] eqn:Hpayload;
      destruct (read_payload_quiet _ _ _ _ _ _ _ Hpayload) as (events & -> & _).
    + apply (invoke_with_payload_closes service_name tool_name payload (log s events)).
    + no_connector.
    + no_connector.
Qed.

End commands_scope.

(** C3. Modelled from the spec. When a client scope ends, whatever calls
    were made in it and however they ended, every connector opened in the
    scope is closed in the state the caller gets back, and the connectors
    that existed before are untouched; the same holds when [tools] and
    [invoke] return. Closing a closed connector changes nothing and reports
    no failure, and so does closing a second time. *)
Theorem connectors_closed_on_exit
    (json_loads : string → loads_result) (json_dumps : value → string) (w : World)
    (s : state) :
  (∀ configs calls,
     closed_from (length (connectors s))
       (MCPToolClient.with_client w (MCPToolClient.run_calls w configs calls) s).2
     ∧ ∀ h, (h < length (connectors s))%nat →
         connectors (MCPToolClient.with_client w (MCPToolClient.run_calls w configs calls) s).2
           !! h
         = connectors s !! h)
  ∧ (∀ service_name,
       closed_from (length (connectors s)) (list_mcp_tools w service_name s).2)
  ∧ (∀ service_name tool_name args args_file,
       closed_from (length (connectors s))
         (invoke_mcp_tool json_loads json_dumps w service_name tool_name args args_file s).2)
  ∧ (∀ h c,
       connectors s !! h = Some c → conn_closed c = true →
       MCPToolClient.connector_close w h s = (None, s))
  ∧ (∀ h,
       MCPToolClient.connector_close w h (MCPToolClient.connector_close w h s).2
       = (None, (MCPToolClient.connector_close w h s).2)).
Proof.
  split_and!.
  - intros configs calls. apply with_client_closes, run_calls_keeps.
  - intros service_name. apply list_mcp_tools_closes.
  - intros service_name tool_name args args_file. apply invoke_mcp_tool_closes.
  - intros h c. apply connector_close_closed.
  - intros h. apply connector_close_twice.
Qed.

Lemma connectors_closed_on_exit_witness :
  MCPToolClient.with_client Demo.world
    (MCPToolClient.run_calls Demo.world Demo.servers
       [MCPToolClient.ListTools "search";
        MCPToolClient.InvokeTool "files" "read" (VDict [("path", VStr "/tmp/x")]);
        MCPToolClient.ListTools "search"])
    initial
  = (Raised (InvocationFailed "files" "permission denied"),
     {| trace :=
          [ClientEnter; ConnOpen "search" true; ConnListTools 0; ConnOpen "files" true;
           ConnCallTool 1 "read" (VDict [("path", VStr "/tmp/x")]);
           ConnClose 1 None; ConnClose 0 None; ClientExit];
        connectors :=
          [{| conn_service := "search"; conn_closed := true |};
           {| conn_service := "files"; conn_closed := true |}];
        client := [("search", 0%nat); ("files", 1%nat)] |})
  ∧ closed_from 0
      (MCPToolClient.with_client Demo.world
         (MCPToolClient.run_calls Demo.world Demo.servers
            [MCPToolClient.ListTools "search";
             MCPToolClient.InvokeTool "files" "read" (VDict [("path", VStr "/tmp/x")]);
             MCPToolClient.ListTools "search"])
         initial).2.
Proof.
  split; [by vm_compute|].
  destruct (connectors_closed_on_exit Json.loads Json.dumps Demo.world initial)
    as (Hscope & _).
  apply Hscope.
Defined.

(** ** The result normaliser *)

Lemma split_first_text_spec before text after :
  Forall is_blob before →
  ResultNormalizer.split_first_text (before ++ TextItem text :: after)
  = Some (text, before ++ after).
Proof.
  induction 1 as [|i before Hi _ IH]; [done|].
  destruct i as [|ref]; [done|]. simpl. by rewrite IH.
Qed.

Lemma split_first_text_none items :
  Forall is_blob items → ResultNormalizer.split_first_text items = None.
Proof.
  induction 1 as [|i items Hi _ IH]; [done|].
  destruct i as [|ref]; [done|]. simpl. by rewrite IH.
Qed.

(** C8. Modelled from the spec. A single unstructured text normalises to
    that text with no attachment. A content list normalises to its first
    text-bearing item as the primary value and to all its other items, the
    ones before it and the ones after it, in their original order, as the
    attachments. *)
Theorem normalize_shapes :
  (∀ payload, ResultNormalizer.normalize (RawText payload) = Some (VStr payload, []))
  ∧ (∀ before text after,
       Forall is_blob before →
       ResultNormalizer.normalize (RawContent (before ++ TextItem text :: after))
       = Some (VStr text, ResultNormalizer.item_value <$> (before ++ after))).
Proof.
  split; [done|]. intros before text after Hblobs. simpl.
  by rewrite split_first_text_spec.
Qed.

Lemma normalize_shapes_witness :
  ResultNormalizer.normalize
    (RawContent [BlobItem (VStr "blob:7"); TextItem "hit"; TextItem "more";
                 BlobItem (VStr "blob:8")])
  = Some (VStr "hit", [VStr "blob:7"; VStr "more"; VStr "blob:8"]).
Proof.
  destruct normalize_shapes as [_ Hcontent].
  apply (Hcontent [BlobItem (VStr "blob:7")] "hit" [TextItem "more"; BlobItem (VStr "blob:8")]).
  by repeat constructor.
Defined.

(** ** What a scope adds to the trace *)

Section scope_trace.

Variable w : World.

Lemma connector_close_trace h s :
  ∃ events, trace (MCPToolClient.connector_close w h s).2 = trace s ++ events.
Proof.
  unfold MCPToolClient.connector_close.
  destruct (connectors s !! h) as [c|]; [destruct (conn_closed c)|]; simpl;
    try (exists []; by rewrite (right_id_L [] (++))).
  by eexists.
Qed.

Lemma close_all_trace hs s :
  ∃ events, trace (MCPToolClient.close_all w hs s).2 = trace s ++ events.
Proof.
  revert s. induction hs as [|h hs IH]; intros s; simpl.
  - exists []. by rewrite (right_id_L [] (++)).
  - destruct (connector_close_trace h s) as [events1 H1].
    destruct (MCPToolClient.connector_close w h s) as [failure s1]; simpl in *.
    destruct (IH s1) as [events2 H2].
    destruct (MCPToolClient.close_all w hs s1) as [failures s2]; simpl in *.
    exists (events1 ++ events2). by rewrite H2, H1, (assoc_L (++)).
Qed.

Lemma client_exit_trace s :
  ∃ events, trace (MCPToolClient.client_exit w s).2 = trace s ++ events.
Proof.
  unfold MCPToolClient.client_exit.
  destruct (close_all_trace (reverse (client s).*2) s) as [events H].
  destruct (MCPToolClient.close_all w _ s) as [failures s1]; simpl in *.
  exists (events ++ [ClientExit]). by rewrite H, (assoc_L (++)).
Qed.

(** The first call of a scope to a service that is configured and opens:
    the connector gets the next handle and the call goes to it. *)
Lemma invoke_tool_fresh configs service secrets tool arguments s :
  dict_get configs service = Some secrets →
  client s = [] →
  transport_open w (length (trace s)) service secrets = true →
  trace (MCPToolClient.invoke_tool w configs service tool arguments s).2
  = trace s ++ [ConnOpen service true; ConnCallTool (length (connectors s)) tool arguments].
Proof.
  intros Hconfig Hclient Hopen.
  unfold MCPToolClient.invoke_tool, MCPToolClient.resolve, MCPToolClient.connector_open,
    MCPToolClient.now.
  rewrite Hconfig. run. rewrite Hclient. simpl. rewrite Hopen. simpl.
  destruct (transport_call_tool _ _ _ _ _) as [e|[payload|items|detail|]]; simpl;
    [..|destruct (ResultNormalizer.split_first_text items) as [[text others]|]| |];
    simpl; by rewrite <- (assoc_L (++)).
Qed.

Lemma dict_get_Some {A} (d : list (string * A)) k v : dict_get d k = Some v → k ∈ d.*1.
Proof.
  induction d as [|[k' v'] d IH]; [done|]. simpl. case_decide as Hk.
  - intros _. subst. apply elem_of_cons. by left.
  - intros Hget. apply elem_of_cons. right. by apply IH.
Qed.

End scope_trace.

(** ** No argument source *)

(** C10. Without [--args] and without [--args-file], [invoke] runs on the
    payload [{}]: it never exits for its arguments (codes 5 to 8), and when
    the secrets name the service it enters a client scope in which the
    client's [invoke_tool] is called with [{}]; when the connector of the
    service opens, the tool call that goes out carries [{}]. *)
Theorem no_arguments_means_empty_mapping
    (json_loads : string → loads_result) (json_dumps : value → string) (w : World)
    (service_name tool_name : string) (s : state) :
  invoke_mcp_tool json_loads json_dumps w service_name tool_name None None s
    = invoke_with_payload json_dumps w service_name tool_name empty_mapping s
  ∧ (∀ code,
       (invoke_mcp_tool json_loads json_dumps w service_name tool_name None None s).1
         = Exit code →
       code = 2 ∨ code = 3 ∨ code = 9)
  ∧ (∀ configs,
       load_secrets w = SecretsLoaded configs → configs ≠ [] →
       service_name ∈ configs.*1 →
       invoke_mcp_tool json_loads json_dumps w service_name tool_name None None s
         = ('(result, attachments) ←
              MCPToolClient.with_client w
                (MCPToolClient.invoke_tool w configs service_name tool_name empty_mapping);
            print_result json_dumps result attachments) (log s [LoadSecrets]))
  ∧ (∀ configs secrets,
       load_secrets w = SecretsLoaded configs →
       dict_get configs service_name = Some secrets →
       transport_open w (length (trace s) + 2) service_name secrets = true →
       ∃ rest,
         trace (invoke_mcp_tool json_loads json_dumps w service_name tool_name None None s).2
         = trace s
           ++ [LoadSecrets; ClientEnter; ConnOpen service_name true;
               ConnCallTool (length (connectors s)) tool_name empty_mapping]
           ++ rest).
Proof.
  assert (Hrun : invoke_mcp_tool json_loads json_dumps w service_name tool_name None None s
                 = invoke_with_payload json_dumps w service_name tool_name empty_mapping s).
  { rewrite invoke_one by done. unfold mbind, M_bind, bind. by rewrite read_payload_falsy. }
  assert (Hknown : ∀ configs,
            load_secrets w = SecretsLoaded configs → configs ≠ [] →
            service_name ∈ configs.*1 →
            invoke_mcp_tool json_loads json_dumps w service_name tool_name None None s
            = ('(result, attachments) ←
                 MCPToolClient.with_client w
                   (MCPToolClient.invoke_tool w configs service_name tool_name empty_mapping);
               print_result json_dumps result attachments) (log s [LoadSecrets])).
  { intros configs Hload Hne Hin. rewrite Hrun. unfold invoke_with_payload.
    unfold mbind, M_bind, bind. rewrite (load_some w configs s Hload Hne).
    by rewrite (contains_true _ _ Hin). }
  split_and!.
  - done.
  - intros code. rewrite Hrun. intros Hexit.
    apply invoke_with_payload_exit in Hexit as [(-> & _)|[(-> & _)|(-> & _)]]; auto.
  - done.
  - intros configs secrets Hload Hconfig Hopen.
    pose proof (dict_get_Some _ _ _ Hconfig) as Hin.
    rewrite (Hknown configs Hload); [|by destruct configs|done].
    unfold mbind, M_bind, bind.
    pose proof (with_client_state w
                  (MCPToolClient.invoke_tool w configs service_name tool_name empty_mapping)
                  (log s [LoadSecrets])) as Hstate.
    destruct (client_exit_trace w
                (MCPToolClient.invoke_tool w configs service_name tool_name empty_mapping
                   {| trace := trace (log s [LoadSecrets]) ++ [ClientEnter];
                      connectors := connectors (log s [LoadSecrets]);
                      client := [] |}).2) as [closing Hclosing].
    rewrite <- Hstate in Hclosing.
    rewrite (invoke_tool_fresh w configs service_name secrets) in Hclosing; [|done|done|].
    2:{ simpl. rewrite !length_app. simpl. by rewrite <- Hopen, <- Nat.add_assoc. }
    simpl in Hclosing.
    destruct (MCPToolClient.with_client _ _ _) as [[[result attachments]|c|e] s1];
      simpl in *.
    + destruct (print_result_returns json_dumps result attachments s1)
        as (printed & -> & _).
      exists (closing ++ printed). simpl. rewrite Hclosing.
      by rewrite <- !(assoc_L (++)).
    + exists closing. rewrite Hclosing. by rewrite <- !(assoc_L (++)).
    + exists closing. rewrite Hclosing. by rewrite <- !(assoc_L (++)).
Qed.

Lemma no_arguments_means_empty_mapping_witness :
  invoke_mcp_tool Json.loads Json.dumps Demo.world "search" "query" None None initial
  = (Returned tt,
     {| trace :=
          [LoadSecrets; ClientEnter; ConnOpen "search" true;
           ConnCallTool 0 "query" (VDict []); ConnClose 0 None; ClientExit;
           Echo "Tool result:"; Echo "hit"; Echo (String "010"%char "Attachments:");
           Echo "blob:7"; Echo "more"];
        connectors := [{| conn_service := "search"; conn_closed := true |}];
        client := [("search", 0%nat)] |}).
Proof.
  destruct (no_arguments_means_empty_mapping Json.loads Json.dumps Demo.world
              "search" "query" initial) as (_ & _ & Hcall & _).
  assert (Hin : "search" ∈ Demo.servers.*1).
  { apply (bool_decide_unpack _). vm_compute. exact I. }
  rewrite (Hcall Demo.servers eq_refl ltac:(discriminate) Hin). by vm_compute.
Defined.

(** ** The prerequisite commands *)

Ltac host_run :=
  repeat (unfold mbind, Workspace.H_bind, mret, Workspace.H_ret, Workspace.act,
            Workspace.echo, Workspace.crash in *; simpl in *).

Section prerequisites.

Import Workspace.

Variable strip : string → string.
Variable split : string → list string.
Variable h : Host.

Lemma bind_run {A B} (m : H A) (k : A → H B) acts :
  (m ≫= k) acts
  = match m acts with
    | (Done a, acts') => k a acts'
    | (Crashed e, acts') => (Crashed e, acts')
    end.
Proof. reflexivity. Qed.

Lemma adds_ret {A} P (a : A) : adds P (mret a : H A).
Proof. intros acts. exists []. host_run. by rewrite (right_id_L [] (++)). Qed.

Lemma adds_crash {A} P e : adds P (crash e : H A).
Proof. intros acts. exists []. host_run. by rewrite (right_id_L [] (++)). Qed.

Lemma adds_echo (P : action → Prop) line : P (Print line) → adds P (echo line).
Proof. intros HP acts. exists [Print line]. split; [done|]. by repeat constructor. Qed.

Lemma adds_bind {A B} P (m : H A) (k : A → H B) :
  adds P m → (∀ a, adds P (k a)) → adds P (m ≫= k).
Proof.
  intros Hm Hk acts. destruct (Hm acts) as (more1 & H1 & HP1). rewrite bind_run.
  destruct (m acts) as [[a|e] acts1]; simpl in *; subst.
  - destruct (Hk a (acts ++ more1)) as (more2 & H2 & HP2). exists (more1 ++ more2).
    rewrite H2, (assoc_L (++)). split; [done|]. by apply Forall_app.
  - by exists more1.
Qed.

Lemma adds_for_each {A} P (l : list A) (body : A → H unit) :
  (∀ x, adds P (body x)) → adds P (for_each l body).
Proof.
  intros Hbody. induction l as [|x l IH]; simpl.
  - apply adds_ret.
  - apply adds_bind; [apply Hbody|]. by intros [].
Qed.

Lemma get_version_run command acts :
  _get_version strip h command acts
  = (match run h [command; "--version"] with
     | Completed stdout stderr => Done (version_of strip stdout stderr)
     | FileNotFound => Done None
     | OtherFailure exc => Crashed (Uncaught exc)
     end,
     acts ++ [Run [command; "--version"]]).
Proof. unfold _get_version. host_run. by destruct (run h _). Qed.

Lemma or_else_truthy x y : truthy x = true → or_else x y = default "" x.
Proof. destruct x as [s|]; [|done]. simpl. intros ->. done. Qed.

Lemma or_else_falsy x y : truthy x = false → or_else x y = y.
Proof. destruct x as [s|]; [|done]. simpl. intros ->. done. Qed.

(** What [check] does for one registered tool. *)
Lemma check_tool_run command label acts :
  check_tool strip h command label acts
  = if truthy (which h command) then
      match run h [command; "--version"] with
      | OtherFailure exc =>
          (Crashed (Uncaught exc), acts ++ [Run [command; "--version"]])
      | _ =>
          (Done tt,
           acts ++ [Run [command; "--version"];
                    Print (tool_line (which h command) command label)])
      end
    else (Done tt, acts ++ [Print (tool_line (which h command) command label)]).
Proof.
  unfold check_tool, tool_line. rewrite bind_run.
  destruct (truthy (which h command)) eqn:Hfound.
  - rewrite get_version_run.
    destruct (run h _); simpl; unfold echo, act;
      rewrite ?(or_else_truthy _ _ Hfound), <- ?(assoc_L (++)); done.
  - simpl. unfold echo, act. by rewrite (or_else_falsy _ _ Hfound).
Qed.

(** What [check] does for Node.js. *)
Lemma check_node_run acts :
  check_node strip h acts
  = if truthy (which h "node") then
      match run h ["node"; "--version"] with
      | OtherFailure exc => (Crashed (Uncaught exc), acts ++ [Run ["node"; "--version"]])
      | Completed stdout stderr =>
          (Done tt,
           acts ++ [Run ["node"; "--version"];
                    Print ("[OK] Node.js: "
                           +:+ or_else (version_of strip stdout stderr) "version unknown"
                           +:+ " (" +:+ default "" (which h "node") +:+ ")")])
      | FileNotFound =>
          (Done tt,
           acts ++ [Run ["node"; "--version"];
                    Print ("[OK] Node.js: version unknown ("
                           +:+ default "" (which h "node") +:+ ")")])
      end
    else
      (Done tt,
       acts ++ [Print "[MISSING] Node.js: required for Node-based CLIs such as Claude Code"]).
Proof.
  unfold check_node. destruct (truthy (which h "node")); [|done].
  rewrite bind_run, get_version_run.
  destruct (run h _); simpl; unfold echo, act; by rewrite <- ?(assoc_L (++)).
Qed.

Lemma check_python_run acts :
  check_python split h acts
  = match split (sys_version h) with
    | token :: _ =>
        (Done tt,
         acts ++ [Print ((if python_ok h then "[OK]" else "[WARN]")
                         +:+ " Python " +:+ token +:+ " (requires >=3.12)")])
    | [] => (Crashed IndexError, acts)
    end.
Proof. unfold check_python, python_version. rewrite bind_run. by destruct (split _). Qed.

Lemma adds_get_version command :
  truthy (which h command) = true → adds (found_first h) (_get_version strip h command).
Proof.
  intros Hfound acts. rewrite get_version_run. eexists. split; [done|].
  repeat constructor. simpl. eauto.
Qed.

Lemma adds_check_tool command label : adds (found_first h) (check_tool strip h command label).
Proof.
  unfold check_tool. apply adds_bind.
  - destruct (truthy _) eqn:Hfound; [by apply adds_get_version|apply adds_ret].
  - intros version. by apply adds_echo.
Qed.

Lemma adds_check_node : adds (found_first h) (check_node strip h).
Proof.
  unfold check_node. destruct (truthy _) eqn:Hfound; [|by apply adds_echo].
  apply adds_bind; [by apply adds_get_version|]. intros version. by apply adds_echo.
Qed.

Lemma adds_check_python : adds (found_first h) (check_python split h).
Proof.
  unfold check_python, python_version. apply adds_bind.
  - destruct (split _); [apply adds_crash|apply adds_ret].
  - intros python. by apply adds_echo.
Qed.

Lemma adds_check : adds (found_first h) (check strip split h).
Proof.
  unfold check.
  apply adds_bind; [by apply adds_echo|intros []].
  apply adds_bind; [apply adds_check_python|intros []].
  apply adds_bind; [by apply adds_echo|intros []].
  apply adds_bind; [apply adds_check_node|intros []].
  apply adds_bind; [by apply adds_echo|intros []].
  apply adds_bind; [by apply adds_echo|intros []].
  apply adds_bind; [|intros []].
  { apply adds_for_each. intros [command label]. apply adds_check_tool. }
  apply adds_bind; [by apply adds_echo|intros []].
  by apply adds_echo.
Qed.

End prerequisites.

Section version_probe.

Import Workspace.

Variable strip : string → string.
Variable h : Host.

(** X1. [_get_version] launches [command --version] once and gives back
    either nothing or a non-empty text, never the empty string: nothing
    when the executable is not found and when the stream it reads strips to
    nothing, the stripped stream otherwise. Only an exception other than
    [FileNotFoundError] escapes. *)
Theorem get_version_result (command : string) (acts : list action) :
  (_get_version strip h command acts).2 = acts ++ [Run [command; "--version"]]
  ∧ (_get_version strip h command acts).1 ≠ Done (Some "")
  ∧ (run h [command; "--version"] = FileNotFound →
       (_get_version strip h command acts).1 = Done None)
  ∧ (∀ stdout stderr,
       run h [command; "--version"] = Completed stdout stderr →
       (strip (if bool_decide (stdout ≠ "") then stdout else stderr) = "" →
          (_get_version strip h command acts).1 = Done None)
       ∧ (strip (if bool_decide (stdout ≠ "") then stdout else stderr) ≠ "" →
            (_get_version strip h command acts).1
            = Done (Some (strip (if bool_decide (stdout ≠ "") then stdout else stderr)))))
  ∧ (∀ e, (_get_version strip h command acts).1 = Crashed e →
       ∃ exc, e = Uncaught exc ∧ run h [command; "--version"] = OtherFailure exc).
Proof.
  rewrite get_version_run. simpl. split_and!.
  - done.
  - destruct (run h _) as [stdout stderr| |exc]; [|done..].
    unfold version_of. case_bool_decide; congruence.
  - by intros ->.
  - intros stdout stderr ->. unfold version_of. split; intros Hout.
    + by rewrite bool_decide_eq_false_2 by (by intros []).
    + by rewrite bool_decide_eq_true_2.
  - intros e. destruct (run h _) as [stdout stderr| |exc]; [done..|].
    intros [= <-]. eauto.
Qed.

(** X2. [_get_version] reads standard error only when standard output is
    empty: a standard output that holds anything, be it only white space,
    decides the result alone, so a version printed to standard error behind
    a blank standard output is lost. *)
Theorem get_version_prefers_stdout (command stdout stderr : string) (acts : list action) :
  run h [command; "--version"] = Completed stdout stderr →
  (stdout ≠ "" →
     (_get_version strip h command acts).1 = Done (version_of strip stdout "")
     ∧ (strip stdout = "" → (_get_version strip h command acts).1 = Done None))
  ∧ (stdout = "" →
       (_get_version strip h command acts).1 = Done (version_of strip "" stderr)).
Proof.
  intros Hrun. rewrite get_version_run, Hrun. simpl. split.
  - intros Hne. unfold version_of. rewrite !(bool_decide_eq_true_2 (stdout ≠ "")) by done.
    split; [done|]. intros ->. by rewrite bool_decide_eq_false_2 by (by intros []).
  - by intros ->.
Qed.

End version_probe.

Lemma get_version_result_witness :
  (Workspace._get_version Py.strip Workspace.laptop "node" []).1 = Workspace.Done (Some "v18.19.0")
  ∧ (Workspace._get_version Py.strip Workspace.laptop "openai" []).1 = Workspace.Done None.
Proof.
  destruct (get_version_result Py.strip Workspace.laptop "node" [])
    as (_ & _ & _ & Hran & _).
  destruct (get_version_result Py.strip Workspace.laptop "openai" [])
    as (_ & _ & Hmissing & _).
  split.
  - apply (Hran "" (String.app "v18.19.0" (String "010"%char ""))); [reflexivity|].
    by vm_compute.
  - apply Hmissing. reflexivity.
Defined.

Section check_command.

Import Workspace.

Variable strip : string → string.
Variable split : string → list string.
Variable h : Host.

Lemma printed_app a b : printed (a ++ b) = printed a ++ printed b.
Proof. apply omap_app. Qed.

Lemma python_ok_iff :
  python_ok h = true
  ↔ 3 < major (sys_version_info h)
    ∨ (major (sys_version_info h) = 3 ∧ 12 ≤ minor (sys_version_info h)).
Proof.
  unfold python_ok. simpl. repeat case_bool_decide; split; intros; try done; lia.
Qed.

(** What [check] does after the Python line. *)
Lemma adds_check_rest :
  adds (found_first h)
    (check_uv h;;
     check_node strip h;;
     echo "";;
     echo "AI coding toolchains:";;
     for_each REGISTERED_TOOLS (λ '(command, label), check_tool strip h command label);;
     echo "";;
     echo "Update src/tiangong_ai_workspace/cli.py to adjust tool detection rules.").
Proof.
  apply adds_bind; [by apply adds_echo|intros []].
  apply adds_bind; [apply adds_check_node|intros []].
  apply adds_bind; [by apply adds_echo|intros []].
  apply adds_bind; [by apply adds_echo|intros []].
  apply adds_bind; [|intros []].
  { apply adds_for_each. intros [command label]. apply adds_check_tool. }
  apply adds_bind; [by apply adds_echo|intros []].
  by apply adds_echo.
Qed.

(** A registered tool whose process, if launched, does not fail. *)
Lemma check_tool_finishes command label acts :
  (∀ exc, run h [command; "--version"] ≠ OtherFailure exc) →
  ∃ ran,
    check_tool strip h command label acts
    = (Done tt, acts ++ ran ++ [Print (tool_line (which h command) command label)])
    ∧ printed ran = [].
Proof.
  intros Hrun. rewrite check_tool_run. destruct (truthy _).
  - destruct (run h _) as [stdout stderr| |exc] eqn:Hran.
    + by exists [Run [command; "--version"]].
    + by exists [Run [command; "--version"]].
    + by destruct (Hrun exc).
  - by exists [].
Qed.

Lemma check_node_finishes acts :
  (∀ exc, run h ["node"; "--version"] ≠ OtherFailure exc) →
  ∃ ran,
    check_node strip h acts = (Done tt, acts ++ ran ++ [Print (node_line strip h)])
    ∧ printed ran = [].
Proof.
  intros Hrun. rewrite check_node_run. unfold node_line. destruct (truthy _).
  - destruct (run h _) as [stdout stderr| |exc] eqn:Hran.
    + by exists [Run ["node"; "--version"]].
    + by exists [Run ["node"; "--version"]].
    + by destruct (Hrun exc).
  - by exists [].
Qed.

(** The whole of [check] when no process fails. *)
Lemma check_prints acts token rest :
  split (sys_version h) = token :: rest →
  (∀ argv exc, run h argv ≠ OtherFailure exc) →
  (check strip split h acts).1 = Done tt
  ∧ printed (check strip split h acts).2 = printed acts ++ check_lines strip h token.
Proof.
  intros Hsplit Hrun. unfold check. rewrite bind_run. simpl.
  rewrite bind_run, check_python_run, Hsplit.
  rewrite bind_run. unfold check_uv at 1. simpl.
  rewrite bind_run.
  destruct (check_node_finishes
              (((acts ++ [Print (String.app "Checking workspace prerequisites..."
                                   (String "010"%char ""))])
                ++ [Print ((if python_ok h then "[OK]" else "[WARN]")
                           +:+ " Python " +:+ token +:+ " (requires >=3.12)")])
               ++ [Print ((if truthy (which h "uv") then "[OK]" else "[MISSING]")
                          +:+ " Astral uv: " +:+ or_else (which h "uv") "not found")])
              (Hrun _)) as (ran0 & -> & Hran0).
  rewrite bind_run. simpl. rewrite bind_run. simpl.
  unfold REGISTERED_TOOLS. simpl for_each. rewrite !bind_run.
  match goal with
  | |- context [check_tool strip h "openai" ?label ?a] =>
      destruct (check_tool_finishes "openai" label a (Hrun _)) as (ran1 & -> & Hran1)
  end.
  simpl. rewrite !bind_run.
  match goal with
  | |- context [check_tool strip h "gcloud" ?label ?a] =>
      destruct (check_tool_finishes "gcloud" label a (Hrun _)) as (ran2 & -> & Hran2)
  end.
  simpl. rewrite !bind_run.
  match goal with
  | |- context [check_tool strip h "claude" ?label ?a] =>
      destruct (check_tool_finishes "claude" label a (Hrun _)) as (ran3 & -> & Hran3)
  end.
  simpl. split; [done|].
  rewrite !printed_app, Hran0, Hran1, Hran2, Hran3. simpl.
  by rewrite <- !(assoc_L (++)).
Qed.

End check_command.

Lemma get_version_prefers_stdout_witness :
  (Workspace._get_version Py.strip
     (Workspace.with_run
        (λ _, Workspace.Completed (String "010"%char "") "v20.1.0")
        Workspace.laptop)
     "node" []).1
  = Workspace.Done None.
Proof.
  destruct (get_version_prefers_stdout Py.strip
              (Workspace.with_run
                 (λ _, Workspace.Completed (String "010"%char "") "v20.1.0")
                 Workspace.laptop)
              "node" (String "010"%char "") "v20.1.0" [] eq_refl) as [Hblank _].
  destruct (Hblank ltac:(discriminate)) as [_ Hnone]. apply Hnone. by vm_compute.
Defined.

Section check_properties.

Import Workspace.

Variable strip : string → string.
Variable split : string → list string.
Variable h : Host.

Lemma python_ok_decide :
  python_ok h
  = bool_decide (3 < major (sys_version_info h)
                 ∨ (major (sys_version_info h) = 3 ∧ 12 ≤ minor (sys_version_info h))).
Proof.
  destruct (python_ok h) eqn:Hok; symmetry.
  - apply bool_decide_eq_true. by apply python_ok_iff.
  - apply bool_decide_eq_false. rewrite <- python_ok_iff. by rewrite Hok.
Qed.

(** X3. The second line of [check] reports the interpreter: it says [OK]
    exactly when the major version is above 3, or is 3 with a minor version
    of 12 or more, and [WARN] otherwise; the micro version, the release
    level and the serial play no part. *)
Theorem check_python_status (acts : list action) (token : string) (rest : list string) :
  split (sys_version h) = token :: rest →
  ∃ more,
    (check strip split h acts).2
    = acts
      ++ [Print (String.app "Checking workspace prerequisites..." (String "010"%char ""));
          Print ((if bool_decide (3 < major (sys_version_info h)
                                  ∨ (major (sys_version_info h) = 3
                                     ∧ 12 ≤ minor (sys_version_info h)))
                  then "[OK]" else "[WARN]")
                 +:+ " Python " +:+ token +:+ " (requires >=3.12)")]
      ++ more.
Proof.
  intros Hsplit. unfold check. rewrite bind_run. simpl.
  rewrite bind_run, check_python_run, Hsplit, python_ok_decide. cbv beta iota.
  match goal with
  | |- context [(?m ?a).2] =>
      destruct (adds_check_rest strip h a) as (more & Hmore & _)
  end.
  exists more. unfold REGISTERED_TOOLS in Hmore. simpl for_each in Hmore.
  rewrite Hmore. by rewrite <- !(assoc_L (++)).
Qed.

(** X4. [check] never fails for what it finds: as long as [sys.version]
    has a first word and no process launch raises anything but
    [FileNotFoundError], it returns normally after printing eleven lines,
    whether the prerequisites are there or not. The line of a registered tool
    is made of its label, its command and the place [shutil.which] found it
    at, or [not installed]. *)
Theorem check_always_finishes (acts : list action) (token : string) (rest : list string) :
  split (sys_version h) = token :: rest →
  (∀ argv exc, run h argv ≠ OtherFailure exc) →
  (check strip split h acts).1 = Done tt
  ∧ printed (check strip split h acts).2 = printed acts ++ check_lines strip h token
  ∧ length (check_lines strip h token) = 11%nat.
Proof.
  intros Hsplit Hrun.
  destruct (check_prints strip split h acts token rest Hsplit Hrun) as [Hdone Hlines].
  done.
Qed.

(** X5. [check] launches a process only for a command that [shutil.which]
    has found, and only as [command --version]; this holds on every run,
    also the ones an exception ends. *)
Theorem check_launches_only_found (acts : list action) :
  ∃ more,
    (check strip split h acts).2 = acts ++ more
    ∧ ∀ argv, argv ∈ launched more →
        ∃ command, argv = [command; "--version"] ∧ truthy (which h command) = true.
Proof.
  destruct (adds_check strip split h acts) as (more & Hmore & Hfound).
  exists more. split; [done|]. intros argv Hin.
  apply list_elem_of_omap in Hin as (a & Ha & Hargv).
  rewrite Forall_forall in Hfound. specialize (Hfound a Ha).
  destruct a as [line|argv']; simplify_eq. exact Hfound.
Qed.

(** X6. What the registered tools answer to [--version] never shows in the
    output of [check]: with other answers from them (the answer of Node.js
    kept, no launch failing) [check] prints the same lines. *)
Theorem check_ignores_tool_versions
    (answers : list string → completed) (acts : list action)
    (token : string) (rest : list string) :
  split (sys_version h) = token :: rest →
  (∀ argv exc, run h argv ≠ OtherFailure exc) →
  (∀ argv exc, answers argv ≠ OtherFailure exc) →
  answers ["node"; "--version"] = run h ["node"; "--version"] →
  (check strip split (with_run answers h) acts).1 = (check strip split h acts).1
  ∧ printed (check strip split (with_run answers h) acts).2
    = printed (check strip split h acts).2.
Proof.
  intros Hsplit Hrun Hanswers Hnode.
  destruct (check_prints strip split h acts token rest Hsplit Hrun) as [-> ->].
  destruct (check_prints strip split (with_run answers h) acts token rest Hsplit Hanswers)
    as [-> ->].
  split; [done|]. f_equal. unfold check_lines, node_line. simpl. by rewrite Hnode.
Qed.

End check_properties.

Lemma check_python_status_witness :
  ∃ more,
    (Workspace.check Py.strip Py.split Workspace.laptop []).2
    = [Workspace.Print (String.app "Checking workspace prerequisites..."
                          (String "010"%char ""));
       Workspace.Print "[OK] Python 3.12.4 (requires >=3.12)"] ++ more.
Proof.
  destruct (check_python_status Py.strip Py.split Workspace.laptop [] "3.12.4"
              ["(main,"; "Jun"; "6"; "2024,"; "18:26:44)"; "[GCC"; "11.4.0]"])
    as [more Hmore]; [by vm_compute|].
  exists more. exact Hmore.
Defined.

Lemma check_always_finishes_witness :
  (Workspace.check Py.strip Py.split Workspace.laptop []).1 = Workspace.Done tt
  ∧ Workspace.printed (Workspace.check Py.strip Py.split Workspace.laptop []).2
    = [String.app "Checking workspace prerequisites..." (String "010"%char "");
       "[OK] Python 3.12.4 (requires >=3.12)";
       "[OK] Astral uv: /usr/bin/uv";
       "[OK] Node.js: v18.19.0 (/usr/bin/node)";
       "";
       "AI coding toolchains:";
       "[MISSING] OpenAI CLI (Codex) (openai): not installed";
       "[MISSING] Google Cloud CLI (Gemini) (gcloud): not installed";
       "[OK] Claude Code CLI (claude): /usr/local/bin/claude";
       "";
       "Update src/tiangong_ai_workspace/cli.py to adjust tool detection rules."].
Proof.
  destruct (check_always_finishes Py.strip Py.split Workspace.laptop [] "3.12.4"
              ["(main,"; "Jun"; "6"; "2024,"; "18:26:44)"; "[GCC"; "11.4.0]"])
    as (Hdone & Hlines & _).
  - by vm_compute.
  - intros argv exc. unfold Workspace.laptop. simpl. by repeat case_decide.
  - split; [exact Hdone|]. rewrite Hlines. by vm_compute.
Defined.

Lemma check_launches_only_found_witness :
  ∃ more,
    (Workspace.check Py.strip Py.split Workspace.laptop []).2 = more
    ∧ ∀ argv, argv ∈ Workspace.launched more →
        ∃ command,
          argv = [command; "--version"]
          ∧ truthy (Workspace.which Workspace.laptop command) = true.
Proof.
  destruct (check_launches_only_found Py.strip Py.split Workspace.laptop [])
    as (more & Hmore & Hfound).
  exists more. split; [exact Hmore|exact Hfound].
Defined.

Lemma check_ignores_tool_versions_witness :
  Workspace.printed
    (Workspace.check Py.strip Py.split
       (Workspace.with_run
          (λ argv,
             if decide (argv = ["node"; "--version"])
             then Workspace.run Workspace.laptop argv
             else Workspace.Completed "9.9.9" "")
          Workspace.laptop)
       []).2
  = Workspace.printed (Workspace.check Py.strip Py.split Workspace.laptop []).2.
Proof.
  apply (check_ignores_tool_versions Py.strip Py.split Workspace.laptop
           (λ argv,
              if decide (argv = ["node"; "--version"])
              then Workspace.run Workspace.laptop argv
              else Workspace.Completed "9.9.9" "")
           [] "3.12.4" ["(main,"; "Jun"; "6"; "2024,"; "18:26:44)"; "[GCC"; "11.4.0]"]).
  - by vm_compute.
  - intros argv exc. unfold Workspace.laptop. simpl. by repeat case_decide.
  - intros argv exc. simpl. by repeat case_decide.
  - reflexivity.
Defined.

(** ** What the MCP commands print *)

Lemma for_each_echo {A} (f : A → string) (l : list A) s :
  for_each l (λ x, echo (f x)) s = (Returned tt, log s ((λ x, Echo (f x)) <$> l)).
Proof.
  revert s. induction l as [|x l IH]; intros s; simpl.
  - by rewrite log_nil.
  - run. rewrite IH. by rewrite log_log.
Qed.

(** X7. [services] prints a heading and then one line per configured
    service, in the order of the configuration, made of its name, its
    transport and its url. It exits only with code 2 (no secrets source) or
    3 (no service), and on no run does it enter a client scope or open a
    connector. *)
Theorem services_listing (w : World) (s : state) :
  (∀ servers,
     load_secrets w = SecretsLoaded servers → servers ≠ [] →
     list_mcp_services w s
     = (Returned tt,
        log s ([LoadSecrets; Echo "Configured MCP services:"]
               ++ ((λ service, Echo (listing_line (listing_fields service)))
                     <$> servers.*2))))
  ∧ (∀ code, (list_mcp_services w s).1 = Exit code → code = 2 ∨ code = 3)
  ∧ ∃ events,
      (list_mcp_services w s).2 = log s events
      ∧ Forall (λ e, connects e = false) events.
Proof.
  split_and!.
  - intros servers Hload Hne. unfold list_mcp_services. unfold mbind, M_bind, bind.
    rewrite (load_some w servers s Hload Hne). run.
    rewrite (for_each_echo (λ service, listing_line (listing_fields service))).
    by rewrite !log_log.
  - intros code. unfold list_mcp_services. unfold mbind, M_bind, bind.
    destruct (load_secrets w) as [[|x servers]|exc|exc] eqn:Hload.
    + rewrite (load_empty w s Hload). intros [= <-]. auto.
    + rewrite (load_some w _ s Hload) by done. run.
      by rewrite (for_each_echo (λ service, listing_line (listing_fields service))).
    + rewrite (load_not_found w _ s Hload). intros [= <-]. auto.
    + by rewrite (load_malformed w _ s Hload).
  - unfold list_mcp_services. unfold mbind, M_bind, bind.
    destruct (load_secrets w) as [[|x servers]|exc|exc] eqn:Hload.
    + rewrite (load_empty w s Hload). eexists. split; [done|]. by repeat constructor.
    + rewrite (load_some w _ s Hload) by done. run.
      rewrite (for_each_echo (λ service, listing_line (listing_fields service))).
      rewrite !log_log. eexists. split; [done|].
      repeat (constructor; [done|]). apply Forall_fmap. by apply Forall_true.
    + rewrite (load_not_found w _ s Hload). eexists. split; [done|]. by repeat constructor.
    + rewrite (load_malformed w _ s Hload). eexists. split; [done|]. by repeat constructor.
Qed.

Lemma services_listing_witness :
  list_mcp_services Demo.world initial
  = (Returned tt,
     log initial
       [LoadSecrets; Echo "Configured MCP services:";
        Echo "- search (http) -> https://svc/mcp"; Echo "- files (stdio) -> None"]).
Proof.
  destruct (services_listing Demo.world initial) as (Hlines & _).
  apply (Hlines Demo.servers); [reflexivity|discriminate].
Defined.

Lemma for_each_ext {A} (body1 body2 : A → M unit) (l : list A) s :
  (∀ x s0, body1 x s0 = body2 x s0) → for_each l body1 s = for_each l body2 s.
Proof.
  intros Hext. revert s. induction l as [|x l IH]; intros s; [done|]. simpl.
  unfold mbind, M_bind, bind. rewrite Hext.
  destruct (body2 x s) as [[[]| |] ?]; auto.
Qed.

Lemma elem_of_keys_nonempty {A} (d : list (string * A)) k : k ∈ d.*1 → d ≠ [].
Proof. intros Hin ->. by apply elem_of_nil in Hin. Qed.

(** X8. Once the scope of [tools] has returned the tools of the service,
    the command prints a heading and one line per tool, in the order
    received: the name, followed by a colon and the description unless the
    description is missing or empty; without any tool it prints one line
    that says so. An error raised in the scope escapes the command as it is,
    and nothing is printed after it. *)
Theorem tools_listing (w : World) (configs : mcp_servers) (service_name : string)
    (s : state) :
  load_secrets w = SecretsLoaded configs →
  service_name ∈ configs.*1 →
  (∀ tools s1,
     MCPToolClient.with_client w (MCPToolClient.list_tools w configs service_name)
       (log s [LoadSecrets]) = (Returned tools, s1) →
     list_mcp_tools w service_name s
     = (Returned tt, log s1 (tools_lines service_name tools)))
  ∧ (∀ e s1,
       MCPToolClient.with_client w (MCPToolClient.list_tools w configs service_name)
         (log s [LoadSecrets]) = (Raised e, s1) →
       list_mcp_tools w service_name s = (Raised e, s1))
  ∧ (∀ tool,
       description tool = None ∨ description tool = Some "" →
       tool_entry tool = "- " +:+ name tool)
  ∧ (∀ tool text,
       description tool = Some text → text ≠ "" →
       tool_entry tool = "- " +:+ name tool +:+ ": " +:+ text).
Proof.
  intros Hload Hin. pose proof (elem_of_keys_nonempty _ _ Hin) as Hne.
  assert (Hstart : list_mcp_tools w service_name s
    = (tools ← MCPToolClient.with_client w (MCPToolClient.list_tools w configs service_name);
       match tools with
       | [] => echo ("No tools advertised by service '" +:+ service_name +:+ "'.")
       | _ =>
           echo ("Tools available on '" +:+ service_name +:+ "':");;
           for_each tools (λ tool, echo (tool_entry tool))
       end) (log s [LoadSecrets])).
  { unfold list_mcp_tools. unfold mbind, M_bind, bind.
    rewrite (load_some w configs s Hload Hne), (contains_true _ _ Hin). simpl.
    destruct (MCPToolClient.with_client _ _ _) as [[tools|c|e] s1]; try done.
    destruct tools as [|t tools]; [done|].
    unfold mbind, M_bind, bind, echo, emit. cbv beta iota.
    apply for_each_ext. intros tool s0. unfold tool_entry.
    destruct (description tool) as [text|]; simpl; [|done]. by case_bool_decide. }
  split_and!.
  - intros tools s1 Hscope. rewrite Hstart. unfold mbind, M_bind, bind. rewrite Hscope.
    destruct tools as [|t tools]; [done|]. unfold echo at 1, emit. cbv beta iota.
    rewrite (for_each_echo tool_entry). by rewrite log_log.
  - intros e s1 Hscope. rewrite Hstart. unfold mbind, M_bind, bind. by rewrite Hscope.
  - intros tool [Hnone|Hempty]; unfold tool_entry; [by rewrite Hnone|by rewrite Hempty].
  - intros tool text Htext Hne'. unfold tool_entry. rewrite Htext.
    by rewrite bool_decide_eq_true_2.
Qed.

Lemma tools_listing_witness :
  list_mcp_tools Demo.world "search" initial
  = (Returned tt,
     {| trace :=
          [LoadSecrets; ClientEnter; ConnOpen "search" true; ConnListTools 0;
           ConnClose 0 None; ClientExit; Echo "Tools available on 'search':";
           Echo "- query"];
        connectors := [{| conn_service := "search"; conn_closed := true |}];
        client := [("search", 0%nat)] |}).
Proof.
  assert (Hin : "search" ∈ Demo.servers.*1).
  { apply (bool_decide_unpack _). vm_compute. exact I. }
  destruct (tools_listing Demo.world Demo.servers "search" initial eq_refl Hin)
    as (Hlines & _).
  rewrite (Hlines [{| name := "query"; description := None |}]
             {| trace := [LoadSecrets; ClientEnter; ConnOpen "search" true; ConnListTools 0;
                          ConnClose 0 None; ClientExit];
                connectors := [{| conn_service := "search"; conn_closed := true |}];
                client := [("search", 0%nat)] |}); by vm_compute.
Defined.



(** ** The message for an unknown service *)

Lemma includes_prefixed prefix s k : includes s k → includes (prefix +:+ s) k.
Proof.
  intros (before & after & ->). exists (prefix +:+ before), after.
  by rewrite !string_app_assoc.
Qed.

Lemma includes_start s after : includes (s +:+ after) s.
Proof. by exists "", after. Qed.

Lemma concat_cons sep x y l :
  String.concat sep (x :: y :: l) = x +:+ sep +:+ String.concat sep (y :: l).
Proof. reflexivity. Qed.

Lemma concat_includes sep l k : k ∈ l → includes (String.concat sep l) k.
Proof.
  induction l as [|x [|y l] IH]; intros Hin.
  - by apply elem_of_nil in Hin.
  - apply list_elem_of_singleton in Hin as ->. simpl. exists "", "".
    by rewrite string_app_nil_r.
  - rewrite concat_cons. apply elem_of_cons in Hin as [->|Hin].
    + apply includes_start.
    + rewrite string_app_assoc. apply includes_prefixed. by apply IH.
Qed.

Lemma string_length_zero s : String.length s = 0%nat → s = "".
Proof. by destruct s. Qed.

(** X10. The message for an unknown service names every configured
    service: each key of the mapping occurs in it. *)
Theorem not_found_lists_every_name (service_name : string) (configs : mcp_servers)
    (known : string) :
  known ∈ configs.*1 →
  includes (not_found service_name configs) known.
Proof.
  intros Hin. unfold not_found. rewrite !string_app_assoc. apply includes_prefixed.
  assert (Hjoined : includes (String.concat ", " (sorted configs)) known).
  { apply concat_includes. by rewrite sorted_Permutation. }
  unfold available. simpl. case_bool_decide as Hempty; [|done].
  rewrite Hempty in Hjoined. apply includes_length in Hjoined.
  apply Nat.le_0_r, string_length_zero in Hjoined as ->. apply includes_empty.
Qed.

Lemma not_found_lists_every_name_witness :
  includes (not_found "weather" Demo.servers) "files"
  ∧ not_found "weather" Demo.servers
    = "Service 'weather' not found. Available: files, search".
Proof.
  split; [|reflexivity].
  apply (not_found_lists_every_name "weather" Demo.servers "files").
  apply (bool_decide_unpack _). vm_compute. exact I.
Defined.

(** X11. The message for an unknown service does not depend on the order
    in which the services are configured: two mappings with the same keys
    give the same sorted names and the same message. *)
Theorem not_found_order_independent (service_name : string)
    (configs1 configs2 : mcp_servers) :
  configs1.*1 ≡ₚ configs2.*1 →
  sorted configs1 = sorted configs2
  ∧ not_found service_name configs1 = not_found service_name configs2.
Proof.
  intros Hperm.
  assert (Hsorted : sorted configs1 = sorted configs2).
  { apply (Sorted_unique String.le); [apply sorted_Sorted..|].
    by rewrite !sorted_Permutation. }
  split; [done|]. unfold not_found, available. by rewrite Hsorted.
Qed.

Lemma not_found_order_independent_witness :
  not_found "weather" Demo.servers = not_found "weather" (reverse Demo.servers).
Proof.
  apply (not_found_order_independent "weather" Demo.servers (reverse Demo.servers)).
  rewrite fmap_reverse. by rewrite reverse_Permutation.
Defined.

(** ** Payloads that are let through *)

(** X12. [invoke] forwards whatever [json.loads] returns: the payload is
    not checked to be a JSON object, so an array or a number given with
    [--args], or read from the arguments file, goes on to the tool call like
    a mapping does. *)
Theorem payload_forwarded_unchecked
    (json_loads : string → loads_result) (json_dumps : value → string) (w : World)
    (service_name tool_name : string) (s : state) :
  (∀ a payload,
     a ≠ "" → json_loads a = Loaded payload →
     invoke_mcp_tool json_loads json_dumps w service_name tool_name (Some a) None s
     = invoke_with_payload json_dumps w service_name tool_name payload s)
  ∧ (∀ args file text payload,
       truthy args = false → read_text w file = ReadText text →
       json_loads text = Loaded payload →
       invoke_mcp_tool json_loads json_dumps w service_name tool_name args (Some file) s
       = invoke_with_payload json_dumps w service_name tool_name payload
           (log s [ReadTextFile file])).
Proof.
  split.
  - intros a payload Hne Hloads. rewrite invoke_one by (simpl; apply andb_false_r).
    unfold mbind, M_bind, bind. rewrite read_payload_truthy by done.
    unfold inline_payload. by rewrite Hloads.
  - intros args file text payload Hfalsy Hread Hloads.
    rewrite invoke_one by (by rewrite Hfalsy).
    unfold mbind, M_bind, bind. rewrite read_payload_falsy by done.
    unfold file_payload. run. by rewrite Hread, Hloads.
Qed.

Lemma payload_forwarded_unchecked_witness :
  invoke_mcp_tool Json.loads Json.dumps Demo.world "search" "query"
    (Some "[1, 2]") None initial
  = (Returned tt,
     {| trace :=
          [LoadSecrets; ClientEnter; ConnOpen "search" true;
           ConnCallTool 0 "query" (VList [VInt 1; VInt 2]); ConnClose 0 None; ClientExit;
           Echo "Tool result:"; Echo "hit"; Echo (String "010"%char "Attachments:");
           Echo "blob:7"; Echo "more"];
        connectors := [{| conn_service := "search"; conn_closed := true |}];
        client := [("search", 0%nat)] |}).
Proof.
  destruct (payload_forwarded_unchecked Json.loads Json.dumps Demo.world "search" "query"
              initial) as [Hinline _].
  rewrite (Hinline "[1, 2]" (VList [VInt 1; VInt 2])); [|discriminate|by vm_compute].
  by vm_compute.
Defined.

(** X13. An arguments file that is not UTF-8 text is outside the handlers
    of [invoke]: the [UnicodeDecodeError] of [read_text] escapes the command,
    with no exit code and no message, right after the file is read and before
    the secrets are loaded. *)
Theorem undecodable_file_escapes
    (json_loads : string → loads_result) (json_dumps : value → string) (w : World)
    (service_name tool_name : string) (args : option string) (file : path)
    (exc : string) (s : state) :
  truthy args = false →
  read_text w file = ReadUnicodeError exc →
  invoke_mcp_tool json_loads json_dumps w service_name tool_name args (Some file) s
  = (Raised (UnicodeDecodeError exc), log s [ReadTextFile file]).
Proof.
  intros Hfalsy Hread. rewrite invoke_one by (by rewrite Hfalsy).
  unfold mbind, M_bind, bind. rewrite read_payload_falsy by done.
  unfold file_payload. run. by rewrite Hread.
Qed.

Lemma undecodable_file_escapes_witness :
  invoke_mcp_tool Json.loads Json.dumps Demo.world "search" "query"
    None (Some "latin1.json") initial
  = (Raised (UnicodeDecodeError
               "'utf-8' codec can't decode byte 0xe9 in position 0: unexpected end of data"),
     log initial [ReadTextFile "latin1.json"]).
Proof.
  apply (undecodable_file_escapes Json.loads Json.dumps Demo.world "search" "query"
           None "latin1.json"); reflexivity.
Defined.

(** ** Loading the secrets once *)

Section loads_once.

Variable json_loads : string → loads_result.
Variable json_dumps : value → string.
Variable w : World.

Lemma client_step_resolve configs service :
  client_step (MCPToolClient.resolve w configs service).
Proof.
  intros s. unfold MCPToolClient.resolve, MCPToolClient.connector_open.
  destruct (dict_get configs service) as [secrets|]; run.
  - destruct (dict_get (client s) service) as [h|]; simpl.
    + exists []. by rewrite (right_id_L [] (++)).
    + destruct (transport_open _ _ _ _); simpl; eexists; (split; [done|]);
        by repeat constructor.
  - exists []. by rewrite (right_id_L [] (++)).
Qed.

Lemma client_step_list_tools configs service :
  client_step (MCPToolClient.list_tools w configs service).
Proof.
  intros s. unfold MCPToolClient.list_tools. unfold mbind, M_bind, bind.
  destruct (client_step_resolve configs service s) as (events & Htrace & Hall).
  destruct (MCPToolClient.resolve w configs service s) as [[h|c|e] s1]; simpl in *;
    [|by eauto..].
  run. destruct (transport_list_tools _ _ _); simpl; rewrite Htrace;
    (exists (events ++ [ConnListTools h])); rewrite (assoc_L (++));
    (split; [done|]); apply Forall_app; split; try done; by repeat constructor.
Qed.

Lemma client_step_invoke_tool configs service tool arguments :
  client_step (MCPToolClient.invoke_tool w configs service tool arguments).
Proof.
  intros s. unfold MCPToolClient.invoke_tool. unfold mbind, M_bind, bind.
  destruct (client_step_resolve configs service s) as (events & Htrace & Hall).
  destruct (MCPToolClient.resolve w configs service s) as [[h|c|e] s1]; simpl in *;
    [|by eauto..].
  run.
  assert (Hcall : ∃ events',
            trace s1 ++ [ConnCallTool h tool arguments] = trace s ++ events'
            ∧ Forall (λ e, connects e = true) events').
  { exists (events ++ [ConnCallTool h tool arguments]). rewrite Htrace, (assoc_L (++)).
    split; [done|]. apply Forall_app. split; [done|]. by repeat constructor. }
  destruct (transport_call_tool _ _ _ _ _) as [e|[payload|items|detail|]]; simpl;
    try done.
  by destruct (ResultNormalizer.split_first_text items) as [[text others]|].
Qed.

Lemma close_step h s :
  ∃ events,
    trace (MCPToolClient.connector_close w h s).2 = trace s ++ events
    ∧ Forall (λ e, connects e = true) events.
Proof.
  unfold MCPToolClient.connector_close.
  destruct (connectors s !! h) as [c|]; [destruct (conn_closed c)|]; simpl;
    try (exists []; by rewrite (right_id_L [] (++))).
  eexists. split; [done|]. by repeat constructor.
Qed.

Lemma close_all_step hs s :
  ∃ events,
    trace (MCPToolClient.close_all w hs s).2 = trace s ++ events
    ∧ Forall (λ e, connects e = true) events.
Proof.
  revert s. induction hs as [|h hs IH]; intros s; simpl.
  - exists []. by rewrite (right_id_L [] (++)).
  - destruct (close_step h s) as (events1 & H1 & Hall1).
    destruct (MCPToolClient.connector_close w h s) as [failure s1]; simpl in *.
    destruct (IH s1) as (events2 & H2 & Hall2).
    destruct (MCPToolClient.close_all w hs s1) as [failures s2]; simpl in *.
    exists (events1 ++ events2). rewrite H2, H1, (assoc_L (++)). split; [done|].
    by apply Forall_app.
Qed.

Lemma with_client_step {A} (body : M A) :
  client_step body → client_step (MCPToolClient.with_client w body).
Proof.
  intros Hbody s. rewrite with_client_state.
  set (s0 := {| trace := trace s ++ [ClientEnter]; connectors := connectors s;
                client := [] |}).
  destruct (Hbody s0) as (events1 & H1 & Hall1).
  destruct (body s0) as [r s1]. simpl in H1. unfold MCPToolClient.client_exit.
  cbn [snd].
  match goal with
  | |- context [MCPToolClient.close_all w ?hs s1] =>
      destruct (close_all_step hs s1) as (events2 & H2 & Hall2);
      destruct (MCPToolClient.close_all w hs s1) as [failures s2]
  end.
  simpl in *.
  exists ([ClientEnter] ++ events1 ++ events2 ++ [ClientExit]).
  rewrite H2, H1, <- !(assoc_L (++)). split; [done|].
  repeat (apply Forall_app; split); try done; by repeat constructor.
Qed.

Lemma connects_neither e : connects e = true → neither_loads_nor_reads e.
Proof. by destruct e. Qed.

Lemma quiet_neither e : reaches_out e = false → e ≠ LoadSecrets.
Proof. by destruct e. Qed.

(** What [_load_mcp_configs] adds to the trace. *)
Lemma load_events s :
  ∃ rest,
    trace (_load_mcp_configs w s).2 = trace s ++ [LoadSecrets] ++ rest
    ∧ Forall neither_loads_nor_reads rest
    ∧ (rest = [] ∨ ∃ c, (_load_mcp_configs w s).1 = Exit c).
Proof.
  unfold _load_mcp_configs. run.
  destruct (load_secrets w) as [[|x servers]|exc|exc]; run; rewrite <- ?(assoc_L (++));
    eexists; (split; [done|]); split; eauto; by repeat constructor.
Qed.

Lemma plain_ret {A} (a : A) : plain_step (mret a : M A).
Proof. intros s. exists []. simpl. by rewrite (right_id_L [] (++)). Qed.

Lemma plain_exit {A} c : plain_step (typer_exit c : M A).
Proof. intros s. exists []. simpl. by rewrite (right_id_L [] (++)). Qed.

Lemma plain_emit e : neither_loads_nor_reads e → plain_step (emit e).
Proof. intros He s. exists [e]. split; [done|]. by repeat constructor. Qed.

Lemma plain_bind {A B} (m : M A) (k : A → M B) :
  plain_step m → (∀ a, plain_step (k a)) → plain_step (m ≫= k).
Proof.
  intros Hm Hk s. destruct (Hm s) as (events1 & H1 & Hall1).
  unfold mbind, M_bind, bind. destruct (m s) as [[a|c|e] s1]; simpl in *;
    [|by eauto..].
  destruct (Hk a s1) as (events2 & H2 & Hall2). exists (events1 ++ events2).
  rewrite H2, H1, (assoc_L (++)). split; [done|]. by apply Forall_app.
Qed.

Lemma plain_for_each {A} (l : list A) (body : A → M unit) :
  (∀ x, plain_step (body x)) → plain_step (for_each l body).
Proof.
  intros Hbody. induction l as [|x l IH]; simpl.
  - apply plain_ret.
  - apply plain_bind; [apply Hbody|]. by intros [].
Qed.

Lemma plain_client_step {A} (m : M A) : client_step m → plain_step m.
Proof.
  intros Hm s. destruct (Hm s) as (events & Htrace & Hall). exists events.
  split; [done|]. eapply Forall_impl; [exact Hall|]. apply connects_neither.
Qed.

Lemma plain_print_result result attachments :
  plain_step (print_result json_dumps result attachments).
Proof.
  unfold print_result.
  apply plain_bind; [by apply plain_emit|intros []].
  apply plain_bind; [by apply plain_emit|intros []].
  destruct attachments; [apply plain_ret|].
  apply plain_bind; [by apply plain_emit|intros []].
  apply plain_for_each. intros attachment. by apply plain_emit.
Qed.

(** A command that loads the secrets and goes on with plain steps. *)
Lemma loads_then_plain {A} (k : mcp_servers → M A) s :
  (∀ configs, plain_step (k configs)) →
  ∃ rest,
    trace ((_load_mcp_configs w ≫= k) s).2 = trace s ++ [LoadSecrets] ++ rest
    ∧ Forall neither_loads_nor_reads rest.
Proof.
  intros Hk. destruct (load_events s) as (rest & Htrace & Hall & Hrest).
  unfold mbind, M_bind, bind.
  destruct (_load_mcp_configs w s) as [[configs|c|e] s1]; simpl in *; [|by eauto..].
  destruct Hrest as [->|[c [=]]].
  destruct (Hk configs s1) as (events & Hevents & Hall'). exists events.
  rewrite Hevents, Htrace. by rewrite <- !(assoc_L (++)).
Qed.

Lemma plain_tools_body service_name configs :
  plain_step
    (if negb (contains configs service_name) then
       secho (not_found service_name configs) RED;; typer_exit 4
     else
       tools ← MCPToolClient.with_client w
                 (MCPToolClient.list_tools w configs service_name);
       match tools with
       | [] => echo ("No tools advertised by service '" +:+ service_name +:+ "'.")
       | _ =>
           echo ("Tools available on '" +:+ service_name +:+ "':");;
           for_each tools (λ tool,
             let description := default "" (description tool) in
             if bool_decide (description ≠ "") then
               echo ("- " +:+ name tool +:+ ": " +:+ description)
             else
               echo ("- " +:+ name tool))
       end : M unit).
Proof.
  destruct (negb _).
  - apply plain_bind; [by apply plain_emit|intros []]. apply plain_exit.
  - apply plain_bind.
    + apply plain_client_step, with_client_step, client_step_list_tools.
    + intros [|t tools]; [by apply plain_emit|].
      apply plain_bind; [by apply plain_emit|intros []].
      apply plain_for_each. intros tool. simpl. case_bool_decide; by apply plain_emit.
Qed.

Lemma plain_invoke_body service_name tool_name payload configs :
  plain_step
    (if negb (contains configs service_name) then
       secho (not_found service_name configs) RED;; typer_exit 9
     else
       '(result, attachments) ←
         MCPToolClient.with_client w
           (MCPToolClient.invoke_tool w configs service_name tool_name payload);
       print_result json_dumps result attachments : M unit).
Proof.
  destruct (negb _).
  - apply plain_bind; [by apply plain_emit|intros []]. apply plain_exit.
  - apply plain_bind.
    + apply plain_client_step, with_client_step, client_step_invoke_tool.
    + intros [result attachments]. apply plain_print_result.
Qed.

(** What reading the payload adds to the trace. *)
Lemma read_payload_events args args_file s :
  ∃ reading rest,
    trace (read_payload json_loads w args args_file s).2 = trace s ++ reading ++ rest
    ∧ (reading = [] ∨ ∃ file, reading = [ReadTextFile file])
    ∧ Forall neither_loads_nor_reads rest
    ∧ (rest = [] ∨ ∀ payload, (read_payload json_loads w args args_file s).1
                               ≠ Returned payload).
Proof.
  destruct (truthy args) eqn:Htruthy.
  - apply truthy_true in Htruthy as (a & -> & Hne).
    rewrite read_payload_truthy by done. unfold inline_payload.
    destruct (json_loads a); run.
    + exists [], []. split_and!; [simpl; by rewrite (right_id_L [] (++))|auto|done|auto].
    + exists [], [Secho ("Invalid JSON for --args: " +:+ exc) RED].
      split_and!; [done|auto|by repeat constructor|by right].
  - rewrite read_payload_falsy by done. destruct args_file as [file|]; simpl.
    + unfold file_payload. run.
      destruct (read_text w file) as [text|exc|exc]; [destruct (json_loads text)|..]; run;
        rewrite <- ?(assoc_L (++)).
      * exists [ReadTextFile file], []. split_and!; eauto.
      * eexists [ReadTextFile file], [_].
        split_and!; [done|eauto|by repeat constructor|by right].
      * eexists [ReadTextFile file], [_].
        split_and!; [done|eauto|by repeat constructor|by right].
      * exists [ReadTextFile file], []. split_and!; eauto.
    + exists [], []. split_and!; [simpl; by rewrite (right_id_L [] (++))|auto|done|auto].
Qed.

End loads_once.

(** X14. On every run of [services], [tools] and [invoke], whatever the
    world answers and however the run ends, the secrets are loaded at most
    once and the arguments file is read at most once, the file before the
    secrets: nothing that follows, in the client scope or in the printing,
    loads or reads again. *)
Theorem secrets_loaded_once
    (json_loads : string → loads_result) (json_dumps : value → string) (w : World)
    (s : state) :
  (∃ events,
     trace (list_mcp_services w s).2 = trace s ++ events ∧ reads_then_loads_once events)
  ∧ (∀ service_name,
       ∃ events,
         trace (list_mcp_tools w service_name s).2 = trace s ++ events
         ∧ reads_then_loads_once events)
  ∧ (∀ service_name tool_name args args_file,
       ∃ events,
         trace (invoke_mcp_tool json_loads json_dumps w service_name tool_name
                  args args_file s).2 = trace s ++ events
         ∧ reads_then_loads_once events).
Proof.
  split_and!.
  - destruct (loads_then_plain w
                (λ configs,
                   echo "Configured MCP services:";;
                   for_each (configs.*2) (λ service,
                     echo ("- " +:+ service_name service +:+ " (" +:+ transport service
                           +:+ ") -> " +:+ str_optional (url service)))) s)
      as (rest & Htrace & Hall).
    { intros configs. apply plain_bind; [by apply plain_emit|intros []].
      apply plain_for_each. intros service. by apply plain_emit. }
    exists ([LoadSecrets] ++ rest). split; [exact Htrace|].
    exists [], [LoadSecrets], rest. auto.
  - intros service_name.
    destruct (loads_then_plain w _ s (plain_tools_body w service_name))
      as (rest & Htrace & Hall).
    exists ([LoadSecrets] ++ rest). split; [exact Htrace|].
    exists [], [LoadSecrets], rest. auto.
  - intros service_name tool_name args args_file.
    destruct (truthy args && truthy_path args_file) eqn:Hboth.
    + apply andb_true_iff in Hboth as [Ha Hf]. rewrite invoke_both by done.
      exists [Secho "Use either --args or --args-file, not both." RED]. split; [done|].
      exists [], [], [Secho "Use either --args or --args-file, not both." RED].
      split_and!; [done|auto|auto|by repeat constructor].
    + rewrite invoke_one by done. unfold mbind at 1, M_bind, bind.
      destruct (read_payload_events json_loads w args args_file s)
        as (reading & rest0 & Htrace & Hreading & Hall0 & Hrest0).
      destruct (read_payload json_loads w args args_file s) as [[payload|c|e] s1];
        simpl in *.
      * destruct Hrest0 as [->|Hne]; [|by destruct (Hne payload)].
        destruct (loads_then_plain w _ s1
                    (plain_invoke_body json_dumps w service_name tool_name payload))
          as (rest & Htrace' & Hall).
        exists (reading ++ [LoadSecrets] ++ rest). split.
        -- etrans; [exact Htrace'|]. rewrite Htrace.
           by rewrite (right_id_L [] (++)), <- !(assoc_L (++)).
        -- exists reading, [LoadSecrets], rest. auto.
      * exists (reading ++ rest0). split; [done|]. exists reading, [], rest0. auto.
      * exists (reading ++ rest0). split; [done|]. exists reading, [], rest0. auto.
Qed.

(** ** The commands that only print *)

Section printing_commands.

Import Workspace.

Variable split : string → list string.
Variable h : Host.



End printing_commands.

